(** * Live scoring engine of bblApp: a shallow embedding in Rocq

    Sources embedded here:
    - [utils/baseball] (src/unnamed/part_004): the base-state algebra,
      lineup cursor and half toggling;
    - [store/gameStore] (second half of src/src/store/statsStore.ts): the
      live game store and its five scoring reducers;
    - [utils/stats] (src/unnamed/part_000): the scope filter, the
      individual leaderboard aggregator and the team leaderboard;
    - [store/statsStore] (first half of src/src/store/statsStore.ts):
      [recordGame], [hydrate] and [clear];
    - [LiveGameScreen] (src/src/services/supabase.ts): the steal
      controls;
    - [store/leagueStore] (src/src/store/leagueStore.ts): [addLeague].

    Modelling conventions.
    - JavaScript numbers that the code only adds, compares or takes modulo
      are integers [Z]; the two division results of the aggregator are
      rationals [Q] (the exact quotient that the floating point division
      rounds; the bounds proved below survive correct rounding because
      0, 1 and 4 are representable).
    - A player id is a [string]; a base slot is [option string]
      ([None] is [null]).  JavaScript truthiness of a slot is [truthy].
    - A record keyed by team id is a [gmap string]; [inningRuns], keyed by
      the inning number, is a [gmap Z Z].
    - A code path that throws (reading a field of [undefined]) yields
      [None]; zustand's [set] then leaves the store unchanged.
    - [nanoid()] and [Date.now()] are inputs of the reducers. *)

From Stdlib Require Import ZArith QArith List String Bool Lia Sorted Permutation.
From stdpp Require Import base gmap strings list.
Import ListNotations.

Open Scope Z_scope.

(* ------------------------------------------------------------------ *)
(** ** utils/baseball *)

Module Baseball.

Record BaseState := mkBases {
  first : option string;
  second : option string;
  third : option string;
}.

Inductive BaseName := First | Second | Third.

Definition EMPTY_BASES : BaseState := mkBases None None None.

Definition baseNames : list BaseName := [First; Second; Third].
Definition advancePriority : list BaseName := [Third; Second; First].

Definition baseIndex (b : BaseName) : Z :=
  match b with First => 1 | Second => 2 | Third => 3 end.

(** [indexToBase[n]]: [undefined] outside 1..3. *)
Definition indexToBase (n : Z) : option BaseName :=
  if Z.eqb n 1 then Some First
  else if Z.eqb n 2 then Some Second
  else if Z.eqb n 3 then Some Third
  else None.

Inductive HitType := single | double | triple | homerun.

Definition hitValueMap (t : HitType) : Z :=
  match t with single => 1 | double => 2 | triple => 3 | homerun => 4 end.

Definition cloneBases (b : BaseState) : BaseState :=
  mkBases (first b) (second b) (third b).

Definition get_base (b : BaseState) (n : BaseName) : option string :=
  match n with First => first b | Second => second b | Third => third b end.

(** [bases[n] = v] *)
Definition set_base (b : BaseState) (n : BaseName) (v : option string) : BaseState :=
  match n with
  | First => mkBases v (second b) (third b)
  | Second => mkBases (first b) v (third b)
  | Third => mkBases (first b) (second b) v
  end.

(** JavaScript truthiness of a slot: [null] and [""] are falsy. *)
Definition truthy (o : option string) : bool :=
  match o with Some s => negb (String.eqb s "") | None => false end.

Record MoveResult := mkMove { scored : bool; targetBase : option BaseName }.

Definition moveRunner (bases : BaseState) (from : BaseName) (steps : Z) : MoveResult :=
  let destinationIndex := baseIndex from + steps in
  if 4 <=? destinationIndex then mkMove true None
  else mkMove false (indexToBase destinationIndex).

Record HitResult := mkHit {
  hbefore : BaseState;
  hafter : BaseState;
  hrunsScored : Z;
  hrbi : Z;
}.

(** One iteration of the [forEach] over [[...baseNames].reverse()]:
    the accumulator is the pair [(next, runsScored)]. *)
Definition hit_step (before : BaseState) (basesTaken : Z)
    (acc : BaseState * Z) (baseName : BaseName) : BaseState * Z :=
  let '(next, runsScored) := acc in
  let occupant := get_base before baseName in
  if negb (truthy occupant) then acc
  else
    let moveResult := moveRunner before baseName basesTaken in
    if scored moveResult then (next, runsScored + 1)
    else match targetBase moveResult with
         | Some t => (set_base next t occupant, runsScored)
         | None => acc
         end.

Definition advanceRunnersForHit (current : BaseState) (basesTaken : Z)
    (batterId : string) : HitResult :=
  let before := cloneBases current in
  let '(next, runsScored) :=
    fold_left (hit_step before basesTaken) (rev baseNames)
      (cloneBases EMPTY_BASES, 0) in
  let '(next, runsScored) :=
    if 4 <=? basesTaken then (next, runsScored + 1)
    else match indexToBase basesTaken with
         | Some landingBase => (set_base next landingBase (Some batterId), runsScored)
         | None => (next, runsScored)
         end in
  mkHit before next runsScored runsScored.

(** [locateRunner]: the first base, in the order first, second, third,
    holding [runnerId]. *)
Definition locateRunner (current : BaseState) (runnerId : string) : option BaseName :=
  find (fun b => match get_base current b with
                 | Some r => String.eqb r runnerId
                 | None => false
                 end) baseNames.

Record StealResult := mkSteal {
  sbefore : BaseState;
  safter : BaseState;
  ssuccess : bool;
  srunsScored : Z;
}.

Definition resolveSteal (current : BaseState) (runnerId : string) (success : bool)
    : StealResult :=
  let before := cloneBases current in
  let after := cloneBases current in
  if negb success then
    let after := match locateRunner after runnerId with
                 | Some origin => set_base after origin None
                 | None => after
                 end in
    mkSteal before after success 0
  else
    match find (fun b => truthy (get_base after b)) advancePriority with
    | None => mkSteal before after success 0
    | Some moverBase =>
        let occupant := get_base after moverBase in
        if negb (truthy occupant) then mkSteal before after success 0
        else
          let after := set_base after moverBase None in
          let moveResult := moveRunner before moverBase 1 in
          if scored moveResult then mkSteal before after success 1
          else
            let after := match targetBase moveResult with
                         | Some t => set_base after t occupant
                         | None => after
                         end in
            mkSteal before after success 0
    end.

Record LineupSlot := mkSlot { playerId : string; battingOrder : Z }.

Record TeamLineupState := mkLineup {
  teamId : string;
  lineup : list LineupSlot;
  currentIndex : Z;
}.

(** [lineup.lineup[currentIndex % total]]; JavaScript's [%] truncates
    ([Z.rem]); an empty lineup gives [NaN], a negative index [undefined]:
    both [None]. *)
Definition getCurrentBatter (l : TeamLineupState) : option LineupSlot :=
  let total := Z.of_nat (length (lineup l)) in
  if Z.eqb total 0 then None
  else
    let index := Z.rem (currentIndex l) total in
    if index <? 0 then None else nth_error (lineup l) (Z.to_nat index).

(** [(currentIndex + 1) % length].  On an empty lineup JavaScript yields
    [NaN]; every caller reads [getCurrentBatter] of the same lineup first,
    which fails there, so that case is never reached. *)
Definition moveToNextBatter (l : TeamLineupState) : TeamLineupState :=
  mkLineup (teamId l) (lineup l)
    (Z.rem (currentIndex l + 1) (Z.of_nat (length (lineup l)))).

Inductive GameHalf := top | bottom.

Definition toggleHalf (h : GameHalf) : GameHalf :=
  match h with top => bottom | bottom => top end.

End Baseball.

(* ------------------------------------------------------------------ *)
(** ** store/gameStore *)

Module GameStore.
Import Baseball.

Inductive EventType :=
  | ev_single | ev_double | ev_triple | ev_homerun | ev_strike | ev_error
  | ev_strikeout | ev_caught_out | ev_steal_success | ev_steal_fail.

Definition eventType_of_hit (t : HitType) : EventType :=
  match t with
  | single => ev_single | double => ev_double
  | triple => ev_triple | homerun => ev_homerun
  end.

Record GameEvent := mkEvent {
  id : string;
  gameId : string;
  eventType : EventType;
  inning : Z;
  half : GameHalf;
  batterId : string;
  defenderId : option string;
  runnerId : option string;
  baseStateBefore : BaseState;
  baseStateAfter : BaseState;
  runsScored : Z;
  rbi : Z;
  timestamp : Z;
}.

Record ScoreEntry := mkEntry {
  runs : Z;
  hits : Z;
  errors : Z;
  inningRuns : gmap Z Z;
}.

(** [LiveGameState].  The fields [type], [teamLabels], [teamOrder] and
    [leagueId] are set by [startGame] and copied unchanged by every
    reducer; no reducer reads them, so they are left out. *)
Record LiveGameState := mkLive {
  lgameId : string;
  linning : Z;
  lhalf : GameHalf;
  outs : Z;
  strikes : Z;
  offenseTeamId : string;
  defenseTeamId : string;
  bases : BaseState;
  scoreboard : gmap string ScoreEntry;
  lineups : gmap string TeamLineupState;
  plannedInnings : Z;
  isComplete : bool;
}.

(** Object spreads [{ ...live, field: v }] used by the reducers. *)
Definition with_bases (l : LiveGameState) (b : BaseState) : LiveGameState :=
  mkLive (lgameId l) (linning l) (lhalf l) (outs l) (strikes l) (offenseTeamId l)
    (defenseTeamId l) b (scoreboard l) (lineups l) (plannedInnings l) (isComplete l).
Definition with_outs (l : LiveGameState) (o : Z) : LiveGameState :=
  mkLive (lgameId l) (linning l) (lhalf l) o (strikes l) (offenseTeamId l)
    (defenseTeamId l) (bases l) (scoreboard l) (lineups l) (plannedInnings l) (isComplete l).
Definition with_strikes (l : LiveGameState) (s : Z) : LiveGameState :=
  mkLive (lgameId l) (linning l) (lhalf l) (outs l) s (offenseTeamId l)
    (defenseTeamId l) (bases l) (scoreboard l) (lineups l) (plannedInnings l) (isComplete l).
Definition with_scoreboard (l : LiveGameState) (sb : gmap string ScoreEntry) : LiveGameState :=
  mkLive (lgameId l) (linning l) (lhalf l) (outs l) (strikes l) (offenseTeamId l)
    (defenseTeamId l) (bases l) sb (lineups l) (plannedInnings l) (isComplete l).
Definition with_lineups (l : LiveGameState) (lu : gmap string TeamLineupState) : LiveGameState :=
  mkLive (lgameId l) (linning l) (lhalf l) (outs l) (strikes l) (offenseTeamId l)
    (defenseTeamId l) (bases l) (scoreboard l) lu (plannedInnings l) (isComplete l).

Inductive Mode := idle | live_mode | complete.

(** [GameStoreState] without [completedGames], which only
    [completeGame] writes. *)
Record GameStoreState := mkStore {
  mode : Mode;
  live : option LiveGameState;
  events : list GameEvent;
  recentPlays : list GameEvent;
}.

Definition createScoreboardState (teamIds : list string) : gmap string ScoreEntry :=
  fold_left (fun acc t => <[t := mkEntry 0 0 0 ∅]> acc) teamIds ∅.

Definition toLineupState (tid : string) (players : list string) : TeamLineupState :=
  mkLineup tid (imap (fun i p => mkSlot p (Z.of_nat i + 1)) players) 0.

(** [initialLiveState]; [gameId] is the output of [createUuid()]. *)
Definition initialLiveState (gid teamAId teamBId : string)
    (ls : gmap string TeamLineupState) : LiveGameState :=
  mkLive gid 1 top 0 0 teamAId teamBId EMPTY_BASES
    (createScoreboardState [teamAId; teamBId]) ls 1 false.

(** [startGame] on a friendly payload, after the ids are drawn. *)
Definition startGameFriendly (gid teamAId teamBId : string)
    (teamAPlayers teamBPlayers : list string) : GameStoreState :=
  mkStore live_mode
    (Some (initialLiveState gid teamAId teamBId
       (<[teamBId := toLineupState teamBId teamBPlayers]>
          (<[teamAId := toLineupState teamAId teamAPlayers]> ∅))))
    [] [].

Definition rotateSides (l : LiveGameState) : LiveGameState :=
  let nextHalf := toggleHalf (lhalf l) in
  let nextInning := match lhalf l with bottom => linning l + 1 | top => linning l end in
  mkLive (lgameId l) nextInning nextHalf 0 0 (defenseTeamId l) (offenseTeamId l)
    EMPTY_BASES (scoreboard l) (lineups l) (Z.max (plannedInnings l) nextInning)
    (isComplete l).

(** [if (updatedLive.outs >= 3) updatedLive = rotateSides(updatedLive)] *)
Definition rotateIfThree (l : LiveGameState) : LiveGameState :=
  if 3 <=? outs l then rotateSides l else l.

Definition appendEvent (st : GameStoreState) (ev : GameEvent)
    : list GameEvent * list GameEvent :=
  (events st ++ [ev], firstn 6 (ev :: recentPlays st)).

Definition with_live_append (st : GameStoreState) (l : LiveGameState) (ev : GameEvent)
    : GameStoreState :=
  let '(evs, recent) := appendEvent st ev in
  mkStore (mode st) (Some l) evs recent.

(** The [overrides] argument of [createEventPayload]: a field left
    [None] keeps the default. *)
Record Overrides := mkOv {
  o_eventType : option EventType;
  o_defenderId : option string;
  o_runnerId : option string;
  o_before : option BaseState;
  o_after : option BaseState;
  o_runsScored : option Z;
  o_rbi : option Z;
}.

Definition no_overrides : Overrides := mkOv None None None None None None None.

Definition dflt {A} (o : option A) (d : A) : A :=
  match o with Some x => x | None => d end.

Definition createEventPayload (evid : string) (ts : Z) (l : LiveGameState)
    (ov : Overrides) (bid : string) : GameEvent :=
  mkEvent evid (lgameId l) (dflt (o_eventType ov) ev_strike) (linning l) (lhalf l) bid
    (o_defenderId ov) (o_runnerId ov)
    (dflt (o_before ov) (cloneBases (bases l)))
    (dflt (o_after ov) (cloneBases (bases l)))
    (dflt (o_runsScored ov) 0) (dflt (o_rbi ov) 0) ts.

(** [(inningRuns[inning] ?? 0) + r] stored back at [inning]. *)
Definition add_inning_runs (ir : gmap Z Z) (inn r : Z) : gmap Z Z :=
  <[inn := dflt (ir !! inn) 0 + r]> ir.

Definition credit_runs (sb : gmap string ScoreEntry) (t : string) (e : ScoreEntry)
    (inn r : Z) : gmap string ScoreEntry :=
  <[t := mkEntry (runs e + r) (hits e) (errors e) (add_inning_runs (inningRuns e) inn r)]> sb.

Definition logHit (evid : string) (ts : Z) (type : HitType) (st : GameStoreState)
    : option GameStoreState :=
  match live st with
  | None => Some st
  | Some l =>
      offenseLineup ← lineups l !! offenseTeamId l;
      batter ← getCurrentBatter offenseLineup;
      let hitValue := hitValueMap type in
      let result := advanceRunnersForHit (bases l) hitValue (playerId batter) in
      e ← scoreboard l !! offenseTeamId l;
      let updatedScoreboard :=
        <[offenseTeamId l := mkEntry (runs e + hrunsScored result) (hits e + 1) (errors e)
             (add_inning_runs (inningRuns e) (linning l) (hrunsScored result))]>
          (scoreboard l) in
      let event := createEventPayload evid ts l
        (mkOv (Some (eventType_of_hit type)) None None (Some (hbefore result))
           (Some (hafter result)) (Some (hrunsScored result)) (Some (hrbi result)))
        (playerId batter) in
      let newLineups := <[offenseTeamId l := moveToNextBatter offenseLineup]> (lineups l) in
      let updatedLive :=
        with_scoreboard (with_lineups (with_strikes (with_bases l (hafter result)) 0)
                           newLineups) updatedScoreboard in
      Some (with_live_append st updatedLive event)
  end.

Definition logStrike (evid : string) (ts : Z) (st : GameStoreState)
    : option GameStoreState :=
  match live st with
  | None => Some st
  | Some l =>
      if strikes l <? 2 then
        Some (mkStore (mode st) (Some (with_strikes l (strikes l + 1)))
                (events st) (recentPlays st))
      else
        lu ← lineups l !! offenseTeamId l;
        batter ← getCurrentBatter lu;
        let event := createEventPayload evid ts l
          (mkOv (Some ev_strikeout) None None None None None None) (playerId batter) in
        let updatedLive :=
          with_lineups (with_outs (with_strikes l 0) (outs l + 1))
            (<[offenseTeamId l := moveToNextBatter lu]> (lineups l)) in
        Some (with_live_append st (rotateIfThree updatedLive) event)
  end.

Definition logError (evid : string) (ts : Z) (defender : string) (st : GameStoreState)
    : option GameStoreState :=
  match live st with
  | None => Some st
  | Some l =>
      lu ← lineups l !! offenseTeamId l;
      batter ← getCurrentBatter lu;
      let event := createEventPayload evid ts l
        (mkOv (Some ev_error) (Some defender) None None None None None) (playerId batter) in
      d ← scoreboard l !! defenseTeamId l;
      let updatedScoreboard :=
        <[defenseTeamId l := mkEntry (runs d) (hits d) (errors d + 1) (inningRuns d)]>
          (scoreboard l) in
      if strikes l <? 2 then
        Some (with_live_append st
                (with_scoreboard (with_strikes l (strikes l + 1)) updatedScoreboard) event)
      else
        let updatedLive :=
          with_lineups (with_scoreboard (with_outs (with_strikes l 0) (outs l + 1))
                          updatedScoreboard)
            (<[offenseTeamId l := moveToNextBatter lu]> (lineups l)) in
        Some (with_live_append st (rotateIfThree updatedLive) event)
  end.

Definition logCaughtOut (evid : string) (ts : Z) (defender : string) (st : GameStoreState)
    : option GameStoreState :=
  match live st with
  | None => Some st
  | Some l =>
      lu ← lineups l !! offenseTeamId l;
      batter ← getCurrentBatter lu;
      let event := createEventPayload evid ts l
        (mkOv (Some ev_caught_out) (Some defender) None None None None None)
        (playerId batter) in
      let updatedLive :=
        with_lineups (with_strikes (with_outs l (outs l + 1)) 0)
          (<[offenseTeamId l := moveToNextBatter lu]> (lineups l)) in
      Some (with_live_append st (rotateIfThree updatedLive) event)
  end.

Definition logSteal (evid : string) (ts : Z) (runner defender : string) (success : bool)
    (st : GameStoreState) : option GameStoreState :=
  match live st with
  | None => Some st
  | Some l =>
      let result := resolveSteal (bases l) runner success in
      let updatedLive := with_bases l (safter result) in
      updatedLive ←
        (if success && negb (Z.eqb (srunsScored result) 0) then
           e ← scoreboard l !! offenseTeamId l;
           Some (with_scoreboard updatedLive
                   (credit_runs (scoreboard l) (offenseTeamId l) e (linning l)
                      (srunsScored result)))
         else Some updatedLive);
      let updatedLive :=
        if negb success then with_outs updatedLive (outs updatedLive + 1) else updatedLive in
      let updatedLive := rotateIfThree updatedLive in
      lu ← lineups l !! offenseTeamId l;
      batter ← getCurrentBatter lu;
      let event := createEventPayload evid ts l
        (mkOv (Some (if success then ev_steal_success else ev_steal_fail))
           (Some defender) (Some runner) (Some (sbefore result)) (Some (safter result))
           (Some (if success then srunsScored result else 0))
           (Some (if success then srunsScored result else 0)))
        (playerId batter) in
      Some (with_live_append st updatedLive event)
  end.

(** The operator's scoring actions. *)
Inductive Action :=
  | AHit (t : HitType)
  | AStrike
  | AError (defender : string)
  | ACaughtOut (defender : string)
  | ASteal (runner defender : string) (success : bool).

Definition reduce (evid : string) (ts : Z) (a : Action) (st : GameStoreState)
    : option GameStoreState :=
  match a with
  | AHit t => logHit evid ts t st
  | AStrike => logStrike evid ts st
  | AError d => logError evid ts d st
  | ACaughtOut d => logCaughtOut evid ts d st
  | ASteal r d s => logSteal evid ts r d s st
  end.

(** zustand's [set]: an updater that throws leaves the store as it was. *)
Definition dispatch (evid : string) (ts : Z) (a : Action) (st : GameStoreState)
    : GameStoreState :=
  match reduce evid ts a st with Some st' => st' | None => st end.

(** Actions applied in order, each with its event id and timestamp. *)
Fixpoint run (acts : list (string * Z * Action)) (st : GameStoreState) : GameStoreState :=
  match acts with
  | [] => st
  | (evid, ts, a) :: rest => run rest (dispatch evid ts a st)
  end.

End GameStore.

(* ------------------------------------------------------------------ *)
(** ** utils/stats: scope filter and individual leaderboard *)

Module Stats.
Import Baseball GameStore.

Inductive GameMode := friendly | league_game.

(** [Game]: [startYear] stands for [new Date(game.startTime).getFullYear()]. *)
Record Game := mkGame {
  g_id : string;
  startYear : Z;
  g_leagueId : option string;
  g_type : GameMode;
}.

Inductive StatScope := overall | year | league.

(** [new Map(games.map((g) => [g.id, g]))].get(id): the last game with
    that id wins. *)
Definition game_lookup (games : list Game) (gid : string) : option Game :=
  fold_left (fun acc g => if String.eqb (g_id g) gid then Some g else acc) games None.

(** [defaultScopeYear]: the largest year among the games, else the
    current year [nowYear] ([new Date().getFullYear()]). *)
Definition defaultScopeYear (games : list Game) (nowYear : Z) : Z :=
  match map startYear games with
  | [] => nowYear
  | y :: ys => fold_left Z.max ys y
  end.

Definition filterEventsByScope (evs : list GameEvent) (games : list Game)
    (scope : StatScope) (optYear : option Z) (optLeague : option string) (nowYear : Z)
    : list GameEvent :=
  match scope with
  | overall => evs
  | year =>
      let targetYear := dflt optYear (defaultScopeYear games nowYear) in
      List.filter (fun ev => match game_lookup games (gameId ev) with
                        | None => false
                        | Some g => Z.eqb (startYear g) targetYear
                        end) evs
  | league =>
      List.filter (fun ev => match game_lookup games (gameId ev) with
                        | None => false
                        | Some g =>
                            if truthy optLeague then
                              match g_leagueId g, optLeague with
                              | Some a, Some b => String.eqb a b
                              | None, None => true
                              | _, _ => false
                              end
                            else match g_type g with league_game => true | friendly => false end
                        end) evs
  end.

Record Totals := mkTotals {
  atBats : Z; singles : Z; doubles : Z; triples : Z; homeruns : Z;
  strikeouts : Z; catches : Z; t_errors : Z; stealsAttempted : Z;
  stealsWon : Z; stealsLost : Z; basesDefended : Z; basesStolen : Z;
  t_hits : Z; totalBases : Z; t_rbi : Z;
}.

Definition zeroTotals : Totals := mkTotals 0 0 0 0 0 0 0 0 0 0 0 0 0 0 0 0.

(** Several [+=] on one player's totals, as one field-wise addition. *)
Definition add_totals (a d : Totals) : Totals :=
  mkTotals (atBats a + atBats d) (singles a + singles d) (doubles a + doubles d)
    (triples a + triples d) (homeruns a + homeruns d) (strikeouts a + strikeouts d)
    (catches a + catches d) (t_errors a + t_errors d)
    (stealsAttempted a + stealsAttempted d) (stealsWon a + stealsWon d)
    (stealsLost a + stealsLost d) (basesDefended a + basesDefended d)
    (basesStolen a + basesStolen d) (t_hits a + t_hits d)
    (totalBases a + totalBases d) (t_rbi a + t_rbi d).

(** The [totals] object, in the order its keys were first created. *)
Definition TotalsStore := list (string * Totals).

(** [ensurePlayerTotals(totals, pid)] followed by the [+=] of [d]. *)
Fixpoint credit (s : TotalsStore) (pid : string) (d : Totals) : TotalsStore :=
  match s with
  | [] => [(pid, add_totals zeroTotals d)]
  | (p, t) :: rest =>
      if String.eqb p pid then (p, add_totals t d) :: rest
      else (p, t) :: credit rest pid d
  end.

Definition eventBaseValue (t : EventType) : Z :=
  match t with ev_single => 1 | ev_double => 2 | ev_triple => 3 | ev_homerun => 4 | _ => 0 end.

Definition b2z (b : bool) : Z := if b then 1 else 0.

Definition is_type (t u : EventType) : bool :=
  match t, u with
  | ev_single, ev_single | ev_double, ev_double | ev_triple, ev_triple
  | ev_homerun, ev_homerun | ev_strike, ev_strike | ev_error, ev_error
  | ev_strikeout, ev_strikeout | ev_caught_out, ev_caught_out
  | ev_steal_success, ev_steal_success | ev_steal_fail, ev_steal_fail => true
  | _, _ => false
  end.

Definition hit_delta (ev : GameEvent) : Totals :=
  let t := eventType ev in
  mkTotals 1 (b2z (is_type t ev_single)) (b2z (is_type t ev_double))
    (b2z (is_type t ev_triple)) (b2z (is_type t ev_homerun)) 0 0 0 0 0 0 0 0
    1 (eventBaseValue t) (rbi ev).

Definition strikeout_delta : Totals := mkTotals 1 0 0 0 0 1 0 0 0 0 0 0 0 0 0 0.
Definition at_bat_delta : Totals := mkTotals 1 0 0 0 0 0 0 0 0 0 0 0 0 0 0 0.
Definition error_delta : Totals := mkTotals 0 0 0 0 0 0 0 1 0 0 0 0 0 0 0 0.
Definition catch_delta : Totals := mkTotals 0 0 0 0 0 0 1 0 0 0 0 0 0 0 0 0.
Definition defended_delta : Totals := mkTotals 0 0 0 0 0 0 0 0 0 0 0 1 0 0 0 0.
Definition steal_won_delta (r : Z) : Totals := mkTotals 0 0 0 0 0 0 0 0 1 1 0 0 1 0 0 r.
Definition steal_lost_delta : Totals := mkTotals 0 0 0 0 0 0 0 0 1 0 1 0 0 0 0 0.

(** [gameParticipation]: player id to the set of game ids. *)
Definition Participation := gmap string (gset string).

Definition markGameParticipation (gp : Participation) (pid gid : string) : Participation :=
  <[pid := {[gid]} ∪ dflt (gp !! pid) ∅]> gp.

Definition truthy_id (o : option string) : option string :=
  if truthy o then o else None.

(** The body of [scopedEvents.forEach]. *)
Definition fold_event (acc : TotalsStore * Participation) (ev : GameEvent)
    : TotalsStore * Participation :=
  let '(s, gp) := acc in
  let s := credit s (batterId ev) zeroTotals in
  let gp := markGameParticipation gp (batterId ev) (gameId ev) in
  let '(s, gp) :=
    match eventType ev with
    | ev_single | ev_double | ev_triple | ev_homerun =>
        (credit s (batterId ev) (hit_delta ev), gp)
    | ev_strikeout => (credit s (batterId ev) strikeout_delta, gp)
    | ev_caught_out => (credit s (batterId ev) at_bat_delta, gp)
    | ev_error =>
        match truthy_id (defenderId ev) with
        | Some d => (credit s d error_delta, gp)
        | None => (s, gp)
        end
    | ev_steal_success | ev_steal_fail =>
        let '(s, gp) :=
          match truthy_id (runnerId ev) with
          | Some r =>
              (credit s r (if is_type (eventType ev) ev_steal_success
                           then steal_won_delta (rbi ev) else steal_lost_delta),
               markGameParticipation gp r (gameId ev))
          | None => (s, gp)
          end in
        match truthy_id (defenderId ev) with
        | Some d => (credit s d defended_delta, markGameParticipation gp d (gameId ev))
        | None => (s, gp)
        end
    | ev_strike => (s, gp)
    end in
  if is_type (eventType ev) ev_caught_out then
    match truthy_id (defenderId ev) with
    | Some d => (credit s d catch_delta, gp)
    | None => (s, gp)
    end
  else (s, gp).

Definition aggregate_totals (evs : list GameEvent) : TotalsStore * Participation :=
  fold_left fold_event evs ([], ∅).

Record PlayerIdentity := mkPlayer {
  p_id : string;
  p_displayName : string;
  p_brotherId : option string;
  p_teamId : option string;
}.

Record IndividualStats := mkStats {
  gamesPlayed : Z; s_atBats : Z; s_hits : Z; s_singles : Z; s_doubles : Z;
  s_triples : Z; s_homeruns : Z; s_strikeouts : Z; battingAverage : Q;
  slugging : Q; s_catches : Z; s_errors : Z; s_stealsAttempted : Z;
  s_stealsWon : Z; s_stealsLost : Z; s_basesDefended : Z; s_basesStolen : Z;
  s_rbi : Z;
}.

Record IndividualStatsRow := mkRow {
  r_playerId : string;
  r_displayName : string;
  r_brotherId : option string;
  r_teamId : option string;
  stats : IndividualStats;
}.

Definition player_lookup (players : list PlayerIdentity) (pid : string)
    : option PlayerIdentity :=
  fold_left (fun acc p => if String.eqb (p_id p) pid then Some p else acc) players None.

(** [statTotals.atBats ? x / statTotals.atBats : 0] *)
Definition rate (x atb : Z) : Q :=
  if Z.eqb atb 0 then 0%Q else (inject_Z x / inject_Z atb)%Q.

Definition make_row (players : list PlayerIdentity) (gp : Participation)
    (entry : string * Totals) : IndividualStatsRow :=
  let '(pid, t) := entry in
  let display := player_lookup players pid in
  mkRow pid
    (match display with Some p => p_displayName p | None => "Unknown Player" end)
    (match display with Some p => p_brotherId p | None => None end)
    (match display with Some p => p_teamId p | None => None end)
    (mkStats
       (match gp !! pid with Some g => Z.of_nat (size g) | None => 0 end)
       (atBats t) (t_hits t) (singles t) (doubles t) (triples t) (homeruns t)
       (strikeouts t) (rate (t_hits t) (atBats t)) (rate (totalBases t) (atBats t))
       (catches t) (t_errors t) (stealsAttempted t) (stealsWon t) (stealsLost t)
       (basesDefended t) (basesStolen t) (t_rbi t)).

Inductive StatKey :=
  | k_gamesPlayed | k_atBats | k_hits | k_singles | k_doubles | k_triples
  | k_homeruns | k_strikeouts | k_battingAverage | k_slugging | k_catches
  | k_errors | k_stealsAttempted | k_stealsWon | k_stealsLost
  | k_basesDefended | k_basesStolen | k_rbi.

Definition stat_of (k : StatKey) (s : IndividualStats) : Q :=
  match k with
  | k_gamesPlayed => inject_Z (gamesPlayed s) | k_atBats => inject_Z (s_atBats s)
  | k_hits => inject_Z (s_hits s) | k_singles => inject_Z (s_singles s)
  | k_doubles => inject_Z (s_doubles s) | k_triples => inject_Z (s_triples s)
  | k_homeruns => inject_Z (s_homeruns s) | k_strikeouts => inject_Z (s_strikeouts s)
  | k_battingAverage => battingAverage s | k_slugging => slugging s
  | k_catches => inject_Z (s_catches s) | k_errors => inject_Z (s_errors s)
  | k_stealsAttempted => inject_Z (s_stealsAttempted s)
  | k_stealsWon => inject_Z (s_stealsWon s) | k_stealsLost => inject_Z (s_stealsLost s)
  | k_basesDefended => inject_Z (s_basesDefended s)
  | k_basesStolen => inject_Z (s_basesStolen s) | k_rbi => inject_Z (s_rbi s)
  end.

(** [rows.sort((a, b) => b.stats[k] - a.stats[k])]: Array.prototype.sort
    is stable, so this is a stable sort by descending key. *)
Fixpoint insert_desc (k : StatKey) (x : IndividualStatsRow) (l : list IndividualStatsRow)
    : list IndividualStatsRow :=
  match l with
  | [] => [x]
  | y :: l' =>
      if negb (Qle_bool (stat_of k (stats x)) (stat_of k (stats y))) then x :: y :: l'
      else y :: insert_desc k x l'
  end.

Definition sort_desc (k : StatKey) (rows : list IndividualStatsRow) : list IndividualStatsRow :=
  fold_left (fun acc r => insert_desc k r acc) rows [].

(** A player's totals in the store ([zeroTotals] when absent). *)
Fixpoint lookup_totals (s : TotalsStore) (p : string) : Totals :=
  match s with
  | [] => zeroTotals
  | (q, t) :: rest => if String.eqb q p then t else lookup_totals rest p
  end.

(** [buildIndividualLeaderboard]; [sortBy] defaults to [slugging] in the
    source and is explicit here. *)
Definition buildIndividualLeaderboard (evs : list GameEvent) (games : list Game)
    (players : list PlayerIdentity) (scope : StatScope) (optYear : option Z)
    (optLeague : option string) (sortBy : StatKey) (nowYear : Z)
    : list IndividualStatsRow :=
  let scopedEvents := filterEventsByScope evs games scope optYear optLeague nowYear in
  let '(totals, gp) := aggregate_totals scopedEvents in
  sort_desc sortBy (map (make_row players gp) totals).

(** An event whose [gameId] resolves in [new Map(games.map(...))]. *)
Definition known_game (games : list Game) (ev : GameEvent) : bool :=
  match game_lookup games (gameId ev) with Some _ => true | None => false end.

(** The shape every player's totals keep during aggregation: hits split
    into singles to homeruns, total bases weighted 1 to 4, and no more
    hits than at-bats. *)
Definition totals_wf (t : Totals) : Prop :=
  0 <= singles t /\ 0 <= doubles t /\ 0 <= triples t /\ 0 <= homeruns t /\
  t_hits t = singles t + doubles t + triples t + homeruns t /\
  totalBases t = singles t + 2 * doubles t + 3 * triples t + 4 * homeruns t /\
  t_hits t <= atBats t.

End Stats.

(* ------------------------------------------------------------------ *)
(** ** Undo *)

Module Undo.
Import Baseball GameStore.

(** Modelled from the spec: [undoLastAction] of store/gameStore, which
    LiveGameScreen calls but which is not among the sources.  Spec 4.4:
    [undoLast()] removes the most recent event from the event log and
    recomputes the live state by replaying the remaining log from the
    initial state through the same reducers; undo on an empty log is a
    no-op.  An event is replayed as the action that produces its kind,
    with its own id and timestamp. *)
Definition action_of_event (ev : GameEvent) : Action :=
  match eventType ev with
  | ev_single => AHit single
  | ev_double => AHit double
  | ev_triple => AHit triple
  | ev_homerun => AHit homerun
  | ev_strike | ev_strikeout => AStrike
  | ev_error => AError (dflt (defenderId ev) "")
  | ev_caught_out => ACaughtOut (dflt (defenderId ev) "")
  | ev_steal_success => ASteal (dflt (runnerId ev) "") (dflt (defenderId ev) "") true
  | ev_steal_fail => ASteal (dflt (runnerId ev) "") (dflt (defenderId ev) "") false
  end.

(** Modelled from the spec: the replay of a log from the initial state. *)
Definition replay (init : GameStoreState) (evs : list GameEvent) : GameStoreState :=
  run (map (fun ev => (id ev, timestamp ev, action_of_event ev)) evs) init.

(** Modelled from the spec: [undoLast] over the initial store [init] of
    the game. *)
Definition undoLast (init : GameStoreState) (st : GameStoreState) : GameStoreState :=
  match events st with
  | [] => st
  | _ =>
      let remaining := removelast (events st) in
      mkStore (mode st) (live (replay init remaining)) remaining
        (firstn 6 (rev remaining))
  end.

End Undo.

(* ------------------------------------------------------------------ *)
(** ** The hit contract of spec 4.1, written from the spec's words *)

Module HitSpec.
Import Baseball.

(** The base at index [k] after a hit of [n] bases: the batter at [n]
    when [n < 4], the runner from [k - n] otherwise, else empty. *)
Definition spec_slot (b : BaseState) (n : Z) (batter : string) (k : Z) : option string :=
  if Z.eqb k n then Some batter
  else if n <? k then
    match indexToBase (k - n) with Some from => get_base b from | None => None end
  else None.

Definition spec_after (b : BaseState) (n : Z) (batter : string) : BaseState :=
  mkBases (spec_slot b n batter 1) (spec_slot b n batter 2) (spec_slot b n batter 3).

(** Runs: each occupied base whose index plus [n] exceeds third, and
    the batter on a home run. *)
Definition spec_runs (b : BaseState) (n : Z) : Z :=
  fold_right (fun k acc =>
      match get_base b k with
      | Some _ => if 4 <=? baseIndex k + n then acc + 1 else acc
      | None => acc
      end) 0 baseNames
  + (if Z.eqb n 4 then 1 else 0).

(** A well-formed base state holds player ids, which are never empty. *)
Definition wf_bases (b : BaseState) : bool :=
  forallb (fun k => match get_base b k with
                    | Some s => negb (String.eqb s "")
                    | None => true
                    end) baseNames.

(** The runner ids on base, first to third. *)
Definition occupants (b : BaseState) : list string :=
  match first b with Some x => [x] | None => [] end ++
  match second b with Some x => [x] | None => [] end ++
  match third b with Some x => [x] | None => [] end.

End HitSpec.

(* ------------------------------------------------------------------ *)
(** ** Concrete games, and the actions that add an out *)

Module Fixtures.
Import Baseball GameStore.

(** A fresh friendly game between teams "A" and "B". *)
Definition fresh_store : GameStoreState :=
  startGameFriendly "g" "A" "B" ["a1"; "a2"; "a3"] ["b1"; "b2"].

Definition fresh_live : LiveGameState :=
  dflt (live fresh_store) (initialLiveState "g" "A" "B" ∅).



(** The reducers whose branch adds an out: a strike or an error on two
    strikes, a caught-out, a failed steal. *)
Definition adds_out (a : Action) (l : LiveGameState) : Prop :=
  match a with
  | AStrike | AError _ => 2 <= strikes l
  | ACaughtOut _ => True
  | ASteal _ _ success => success = false
  | AHit _ => False
  end.

(** A strikeout logged against a game id that no supplied game has. *)
Definition stray_strikeout : GameEvent :=
  mkEvent "e1" "ghost" ev_strikeout 1 top "p" None None EMPTY_BASES EMPTY_BASES 0 0 0.

End Fixtures.

(* ------------------------------------------------------------------ *)
(** ** Run totals of spec 8 *)

Module Totals.
Import GameStore.





End Totals.

(* ------------------------------------------------------------------ *)
(** ** utils/baseball: the rest of the module *)

Module BaseballExtra.
Import Baseball.

Record CaughtResult := mkCaught { cbefore : BaseState; cafter : BaseState }.

(** [registerCaughtOut(current, runnerId?)]: with a truthy [runnerId],
    every base holding it ([after[base] === runnerId]) is emptied. *)
Definition registerCaughtOut (current : BaseState) (runnerId : option string) : CaughtResult :=
  let before := cloneBases current in
  let after := cloneBases current in
  let after :=
    match runnerId with
    | Some r =>
        if truthy runnerId then
          fold_left (fun a base =>
                       match get_base a base with
                       | Some x => if String.eqb x r then set_base a base None else a
                       | None => a
                       end) baseNames after
        else after
    | None => after
    end in
  mkCaught before after.

(** The number of occupied bases. *)
Definition runner_count (b : BaseState) : Z :=
  Z.of_nat (length (List.filter (fun k => match get_base b k with Some _ => true | None => false end)
                      baseNames)).

(** The base below [k] (the base a runner reaching [k] by one base
    comes from). *)
Definition prev_base (k : BaseName) : option BaseName :=
  match k with First => None | Second => Some First | Third => Some Second end.

(** [bases[k] === r] *)
Definition holds (b : BaseState) (k : BaseName) (r : string) : bool :=
  match get_base b k with Some x => String.eqb x r | None => false end.

End BaseballExtra.

(* ------------------------------------------------------------------ *)
(** ** LiveGameScreen (src/src/services/supabase.ts): the steal controls *)

Module LiveScreen.
Import Baseball GameStore.

(** [canSteal]: [Boolean(bases.first || bases.second || bases.third)]. *)
Definition canSteal (b : BaseState) : bool :=
  truthy (first b) || truthy (second b) || truthy (third b).

(** [runnerId]: [live.bases.third ?? live.bases.second ?? live.bases.first]. *)
Definition screenRunnerId (b : BaseState) : option string :=
  match third b with
  | Some r => Some r
  | None => match second b with Some r => Some r | None => first b end
  end.

(** The [steal_success] / [steal_fail] branches of the defender picker's
    [onSelect]: [if (runnerId) logSteal(runnerId, defenderId, success)]. *)
Definition stealAction (b : BaseState) (defenderId : string) (success : bool) : option Action :=
  match screenRunnerId b with
  | Some r => if truthy (Some r) then Some (ASteal r defenderId success) else None
  | None => None
  end.

End LiveScreen.

(* ------------------------------------------------------------------ *)
(** ** store/gameStore: completeGame and reset *)

Module Lifecycle.
Import Baseball GameStore.

(** [CompletedGameRecord]: its [type], [leagueId], [teamLabels] and
    [teamOrder] are copied verbatim from live fields the model leaves out
    (see [LiveGameState]); [playedAt] is [new Date().toISOString()], an
    input here. *)
Record CompletedGameRecord := mkCompleted {
  c_id : string;
  c_score : gmap string Z;
  c_playedAt : string;
}.

(** The whole [GameStoreState], with [completedGames]. *)
Record FullStore := mkFull {
  core : GameStoreState;
  completedGames : list CompletedGameRecord;
}.

(** [Object.entries(scoreboard).reduce((acc, [teamId, entry]) => { acc[teamId] = entry.runs; ... }, {})] *)
Definition scoreRecord (sb : gmap string ScoreEntry) : gmap string Z :=
  map_fold (fun t e acc => <[t := runs e]> acc) ∅ sb.

Definition with_complete (l : LiveGameState) : LiveGameState :=
  mkLive (lgameId l) (linning l) (lhalf l) (outs l) (strikes l) (offenseTeamId l)
    (defenseTeamId l) (bases l) (scoreboard l) (lineups l) (plannedInnings l) true.

Definition completeGame (playedAt : string) (fs : FullStore) : FullStore :=
  match live (core fs) with
  | None => fs
  | Some l =>
      let completedGame := mkCompleted (lgameId l) (scoreRecord (scoreboard l)) playedAt in
      mkFull (mkStore complete (Some (with_complete l)) (events (core fs))
                (recentPlays (core fs)))
        (firstn 50 (completedGame :: completedGames fs))
  end.

(** The store as a completed game shows it: mode [complete] and the live
    state flagged [isComplete]. *)
Definition mark_complete (st : GameStoreState) : GameStoreState :=
  mkStore complete (option_map with_complete (live st)) (events st) (recentPlays st).


(** [reset]: [set] merges, so [completedGames] is kept. *)
Definition reset (fs : FullStore) : FullStore :=
  mkFull (mkStore idle None [] []) (completedGames fs).

(** A scoring action on the whole store: the reducers spread [...state],
    so [completedGames] is kept. *)
Definition full_dispatch (evid : string) (ts : Z) (a : Action) (fs : FullStore) : FullStore :=
  mkFull (dispatch evid ts a (core fs)) (completedGames fs).

(** [startGame] of a friendly game on the whole store. *)
Definition full_startFriendly (gid teamAId teamBId : string)
    (teamAPlayers teamBPlayers : list string) (fs : FullStore) : FullStore :=
  mkFull (startGameFriendly gid teamAId teamBId teamAPlayers teamBPlayers) (completedGames fs).

End Lifecycle.

(* ------------------------------------------------------------------ *)
(** ** store/statsStore: the recorded games *)

Module RecordedStats.
Import Baseball GameStore Stats.

Record RecordedGameDetail := mkDetail {
  d_id : string;
  d_game : Game;
  d_teamLabels : gmap string string;
  d_scoreboard : gmap string ScoreEntry;
  d_events : list GameEvent;
  d_players : list PlayerIdentity;
  d_recordedAt : string;
  d_teamOrder : list string;
}.

Record StatsState := mkStatsState {
  recordedGames : list Game;
  recordedEvents : list GameEvent;
  playerDirectory : gmap string PlayerIdentity;
  st_teamLabels : gmap string string;
  recordedDetails : gmap string RecordedGameDetail;
}.

Definition initialStats : StatsState := mkStatsState [] [] ∅ ∅ ∅.


Definition hydrate (games : list Game) (evs : list GameEvent)
    (dir : gmap string PlayerIdentity) (teamLabels : gmap string string) (_ : StatsState)
    : StatsState :=
  mkStatsState games evs dir teamLabels ∅.

Definition clear (_ : StatsState) : StatsState := initialStats.

End RecordedStats.

(* ------------------------------------------------------------------ *)
(** ** Counters over a store and a leaderboard *)

Module Counts.
Import Baseball GameStore Stats.


Definition count_events (p : GameEvent -> bool) (evs : list GameEvent) : Z :=
  Z.of_nat (length (List.filter p evs)).



(** The count and side fields of a live state of a game between
    [a] (batting in the top halves) and [b]. *)
Definition counters_ok (a b : string) (l : LiveGameState) : Prop :=
  0 <= outs l <= 2 /\ 0 <= strikes l <= 2 /\ 1 <= linning l <= plannedInnings l /\
  ((lhalf l = top /\ offenseTeamId l = a /\ defenseTeamId l = b) \/
   (lhalf l = bottom /\ offenseTeamId l = b /\ defenseTeamId l = a)).

(** [if (event.defenderId)] / [if (event.runnerId)] followed by a
    comparison of the id with [pid]. *)
Definition truthy_is (o : option string) (pid : string) : bool :=
  match truthy_id o with Some d => String.eqb d pid | None => false end.

(** The events that call [markGameParticipation] for [pid]: as the
    batter, or as the runner or the defender of a steal. *)
Definition involved (pid : string) (ev : GameEvent) : bool :=
  String.eqb (batterId ev) pid ||
  ((is_type (eventType ev) ev_steal_success || is_type (eventType ev) ev_steal_fail) &&
   (truthy_is (runnerId ev) pid || truthy_is (defenderId ev) pid)).

(** Two leaderboard rows in the order the comparator of [sortBy] wants:
    the first has the larger (or an equal) key. *)
Definition desc_by (k : StatKey) (a b : IndividualStatsRow) : Prop :=
  (stat_of k (stats b) <= stat_of k (stats a))%Q.

(** The event types the aggregator counts as an at-bat of the batter. *)
Definition at_bat_type (t : EventType) : bool :=
  match t with
  | ev_single | ev_double | ev_triple | ev_homerun | ev_strikeout | ev_caught_out => true
  | _ => false
  end.

End Counts.

(* ------------------------------------------------------------------ *)
(** ** utils/stats: the team leaderboard *)

Module TeamBoard.
Import Baseball GameStore Stats.

(** A [Game] with the fields [buildTeamLeaderboard] reads beyond the
    scope filter: the two team ids and the optional [finalScore]
    ([(home, away)]). *)
Record TeamGame := mkTeamGame {
  tg_game : Game;
  homeTeamId : string;
  awayTeamId : string;
  finalScore : option (Z * Z);
}.

(** The [stats] object the code builds (the [wins], [losses] and
    [basesDefendedSuccessful] keys of the declared type are never set). *)
Record TeamStats := mkTeamStats {
  tm_gamesPlayed : Z; averageScore : Q; tm_atBats : Z; tm_hits : Z;
  tm_singles : Z; tm_doubles : Z; tm_triples : Z; tm_homeruns : Z;
  tm_strikeouts : Z; tm_battingAverage : Q; tm_slugging : Q; tm_catches : Z;
  tm_errors : Z; tm_stealsAttempted : Z; tm_stealsWon : Z; tm_stealsLost : Z;
  tm_basesDefended : Z; tm_basesStolen : Z;
}.

Record TeamStatsRow := mkTeamRow {
  tr_teamId : string;
  tr_label : string;
  tr_scope : StatScope;
  tr_stats : TeamStats;
}.

(** [games.filter(...)] for one team; [year] is falsy when absent or 0. *)
Definition teamGames (scope : StatScope) (optYear : option Z) (optLeague : option string)
    (teamId : string) (games : list TeamGame) : list TeamGame :=
  List.filter (fun g =>
    (String.eqb (homeTeamId g) teamId || String.eqb (awayTeamId g) teamId) &&
    match scope with
    | league =>
        if truthy optLeague then
          match g_leagueId (tg_game g), optLeague with
          | Some a, Some b => String.eqb a b
          | None, None => true
          | _, _ => false
          end
        else match g_type (tg_game g) with league_game => true | friendly => false end
    | year =>
        match optYear with
        | Some y => if Z.eqb y 0 then true else Z.eqb (startYear (tg_game g)) y
        | None => true
        end
    | overall => true
    end) games.

(** One game's runs for the team in the [reduce]. *)
Definition team_runs (teamId : string) (g : TeamGame) : Z :=
  match finalScore g with
  | Some (home, away) => if String.eqb (homeTeamId g) teamId then home else away
  | None => 0
  end.

(** [new Map(playerStats.map((row) => [row.playerId, row.stats])).get(pid)] *)
Definition row_lookup (rows : list IndividualStatsRow) (pid : string) : option IndividualStats :=
  fold_left (fun acc r => if String.eqb (r_playerId r) pid then Some (stats r) else acc) rows None.

(** [if (row.teamId && row.teamId !== teamId) return;] *)
Definition skips_team (teamId : string) (row : IndividualStatsRow) : bool :=
  truthy (r_teamId row) &&
  negb (match r_teamId row with Some t => String.eqb t teamId | None => false end).

(** The body of [playerStats.forEach] for one team. *)
Definition add_row (teamId : string) (rows : list IndividualStatsRow) (s : TeamStats)
    (row : IndividualStatsRow) : TeamStats :=
  if skips_team teamId row then s else
  match row_lookup rows (r_playerId row) with
  | None => s
  | Some d =>
      mkTeamStats (tm_gamesPlayed s) (averageScore s) (tm_atBats s + s_atBats d)
        (tm_hits s + s_hits d) (tm_singles s + s_singles d) (tm_doubles s + s_doubles d)
        (tm_triples s + s_triples d) (tm_homeruns s + s_homeruns d)
        (tm_strikeouts s + s_strikeouts d) (tm_battingAverage s) (tm_slugging s)
        (tm_catches s + s_catches d) (tm_errors s + s_errors d)
        (tm_stealsAttempted s + s_stealsAttempted d) (tm_stealsWon s + s_stealsWon d)
        (tm_stealsLost s + s_stealsLost d) (tm_basesDefended s + s_basesDefended d)
        (tm_basesStolen s + s_basesStolen d)
  end.

(** The body of [teamIds.forEach]. *)
Definition team_row (scope : StatScope) (optYear : option Z) (optLeague : option string)
    (games : list TeamGame) (labels : gmap string string) (playerStats : list IndividualStatsRow)
    (teamId : string) : TeamStatsRow :=
  let tg := teamGames scope optYear optLeague teamId games in
  let n := length tg in
  let avg :=
    if Nat.eqb n 0 then 0%Q
    else (inject_Z (fold_left (fun sum g => (sum + team_runs teamId g)%Z) tg 0%Z)
          / inject_Z (Z.of_nat n))%Q in
  let s0 := mkTeamStats (Z.of_nat n) avg 0 0 0 0 0 0 0 0 0 0 0 0 0 0 0 0 in
  let s := fold_left (add_row teamId playerStats) playerStats s0 in
  let totalBases := tm_singles s + tm_doubles s * 2 + tm_triples s * 3 + tm_homeruns s * 4 in
  mkTeamRow teamId (dflt (labels !! teamId) "Unknown Team") scope
    (mkTeamStats (tm_gamesPlayed s) (averageScore s) (tm_atBats s) (tm_hits s)
       (tm_singles s) (tm_doubles s) (tm_triples s) (tm_homeruns s) (tm_strikeouts s)
       (rate (tm_hits s) (tm_atBats s)) (rate totalBases (tm_atBats s))
       (tm_catches s) (tm_errors s) (tm_stealsAttempted s) (tm_stealsWon s)
       (tm_stealsLost s) (tm_basesDefended s) (tm_basesStolen s)).

(** [rows.sort((a, b) => b.stats.slugging - a.stats.slugging)], stable. *)
Fixpoint insert_team_desc (x : TeamStatsRow) (l : list TeamStatsRow) : list TeamStatsRow :=
  match l with
  | [] => [x]
  | y :: l' =>
      if negb (Qle_bool (tm_slugging (tr_stats x)) (tm_slugging (tr_stats y)))
      then x :: y :: l'
      else y :: insert_team_desc x l'
  end.

Definition sort_team_desc (rows : list TeamStatsRow) : list TeamStatsRow :=
  fold_left (fun acc r => insert_team_desc r acc) rows [].

(** [buildTeamLeaderboard]; the per-player rows come from
    [buildIndividualLeaderboard] on the scoped events under the overall
    scope with its default [sortBy]. *)
Definition buildTeamLeaderboard (teamIds : list string) (labels : gmap string string)
    (scope : StatScope) (games : list TeamGame) (evs : list GameEvent)
    (players : list PlayerIdentity) (optLeague : option string) (optYear : option Z)
    (nowYear : Z) : list TeamStatsRow :=
  let scopedEvents := filterEventsByScope evs (map tg_game games) scope optYear optLeague nowYear in
  let playerStats := buildIndividualLeaderboard scopedEvents (map tg_game games) players overall
                       None None k_slugging nowYear in
  sort_team_desc (map (team_row scope optYear optLeague games labels playerStats) teamIds).

(** Two team rows in the order of the comparator: the first has the
    larger (or an equal) slugging. *)
Definition team_desc (a b : TeamStatsRow) : Prop :=
  (tm_slugging (tr_stats b) <= tm_slugging (tr_stats a))%Q.

(** The players a team's row adds up: those without a (truthy) team id
    and those of the team. *)
Definition counts_for (teamId : string) (row : IndividualStatsRow) : bool :=
  negb (skips_team teamId row).

Definition sum_Z (l : list Z) : Z := fold_right Z.add 0 l.

End TeamBoard.

(* ------------------------------------------------------------------ *)
(** ** store/leagueStore: the league directory *)

Module Leagues.

Record LeaguePreset := mkLeague {
  l_id : string;
  l_name : string;
  l_year : Z;
}.

(** [addLeague]: [find] an entry with the id; if there is one, [map]
    overwrites the name and year of every entry with that id, otherwise
    the league is appended. *)
Definition addLeague (league : LeaguePreset) (leagues : list LeaguePreset) : list LeaguePreset :=
  match List.find (fun item => String.eqb (l_id item) (l_id league)) leagues with
  | Some _ =>
      map (fun item => if String.eqb (l_id item) (l_id league)
                       then mkLeague (l_id item) (l_name league) (l_year league) else item)
        leagues
  | None => leagues ++ [league]
  end.

End Leagues.

(* ================================================================== *)
(** * Properties *)

(* ------------------------------------------------------------------ *)
(** ** Base-state algebra *)

Section HitProofs.
Import Baseball HitSpec.

(** Spec 8, concrete scenarios. *)
Example hit_first_third_double :
  advanceRunnersForHit (mkBases (Some "a") None (Some "c")) 2 "b"
  = mkHit (mkBases (Some "a") None (Some "c")) (mkBases None (Some "b") (Some "a")) 1 1.
Proof. reflexivity. Qed.

Example hit_loaded_homerun :
  advanceRunnersForHit (mkBases (Some "a") (Some "b") (Some "c")) 4 "d"
  = mkHit (mkBases (Some "a") (Some "b") (Some "c")) EMPTY_BASES 4 4.
Proof. reflexivity. Qed.

Lemma advance_spec_eq (b : BaseState) (n : Z) (batter : string) :
  wf_bases b = true -> 1 <= n <= 4 ->
  advanceRunnersForHit b n batter = mkHit b (spec_after b n batter) (spec_runs b n) (spec_runs b n).
Proof.
  intros Hwf Hn.
  destruct b as [f s t]; unfold wf_bases in Hwf; simpl in Hwf.
  assert (n = 1 \/ n = 2 \/ n = 3 \/ n = 4) as Hc by lia.
  destruct f as [f|], s as [s|], t as [t|]; simpl in Hwf;
    repeat (apply andb_prop in Hwf; destruct Hwf as [? Hwf]);
    repeat match goal with H : negb _ = true |- _ => apply negb_true_iff in H end;
    destruct Hc as [ -> | [ -> | [ -> | -> ] ] ];
    unfold advanceRunnersForHit, spec_after, spec_runs, spec_slot, hit_step, truthy;
    simpl; repeat match goal with H : String.eqb _ _ = false |- _ => rewrite H end;
    reflexivity.
Qed.

Lemma spec_after_nodup (b : BaseState) (n : Z) (batter : string) :
  1 <= n <= 4 ->
  NoDup (occupants b ++ [batter]) -> NoDup (occupants (spec_after b n batter)).
Proof.
  intros Hn Hnd.
  assert (n = 1 \/ n = 2 \/ n = 3 \/ n = 4) as Hc by lia.
  destruct b as [f s t].
  destruct Hc as [ -> | [ -> | [ -> | -> ] ] ];
    destruct f as [f|], s as [s|], t as [t|];
    unfold occupants, spec_after, spec_slot in *; simpl in *;
    repeat rewrite NoDup_cons in *;
    repeat split; try apply NoDup_nil_2; set_solver.
Qed.

(** Claim C4.  [advanceRunnersForHit] on a base state of player ids and
    [basesAdvanced] in 1..4: the runners are taken third, second, first
    ([rev baseNames]); each lands [n] bases further or, past third,
    scores; the batter lands on base [n], or scores on a home run; [rbi]
    equals the runs scored; and no id ends on two bases.  Being a Rocq
    function, the result depends on its inputs only. *)
Theorem advanceRunnersForHit_contract (b : BaseState) (n : Z) (batter : string) :
  wf_bases b = true -> 1 <= n <= 4 ->
  let r := advanceRunnersForHit b n batter in
  hbefore r = b /\ hafter r = spec_after b n batter /\
  hrunsScored r = spec_runs b n /\ hrbi r = hrunsScored r /\
  (NoDup (occupants b ++ [batter]) -> NoDup (occupants (hafter r))).
Proof.
  intros Hwf Hn r. subst r. rewrite (advance_spec_eq b n batter Hwf Hn). simpl.
  split; [done|]. split; [done|]. split; [done|]. split; [done|].
  apply spec_after_nodup; done.
Qed.

Lemma advanceRunnersForHit_contract_witness :
  wf_bases (mkBases (Some "a") None (Some "c")) = true /\ 1 <= 2 <= 4 /\
  hafter (advanceRunnersForHit (mkBases (Some "a") None (Some "c")) 2 "b")
  = spec_after (mkBases (Some "a") None (Some "c")) 2 "b".
Proof.
  split; [reflexivity|]. split; [lia|].
  apply (advanceRunnersForHit_contract (mkBases (Some "a") None (Some "c")) 2 "b");
    [reflexivity | lia].
Defined.

End HitProofs.

(* ------------------------------------------------------------------ *)
(** ** Reducers *)

(** Split the option binds of a reducer that returned [Some]. *)
Ltac split_binds :=
  repeat match goal with
  | H : mbind _ (if ?c then _ else _) = Some _ |- _ => destruct c eqn:?; simpl in H
  | H : mbind _ (mbind _ ?x) = Some _ |- _ =>
      let E := fresh "E" in destruct x eqn:E; simpl in H; [|discriminate H]
  | H : mbind _ ?x = Some _ |- _ =>
      let E := fresh "E" in destruct x eqn:E; simpl in H; [|discriminate H]
  | H : (if ?c then _ else _) = Some _ |- _ => destruct c eqn:?
  | H : Some _ = Some _ |- _ => injection H as H
  end.


Section ReducerProofs.
Import Baseball GameStore Fixtures.


(** Claim C5.  [logStrike] with fewer than two strikes only adds a
    strike (no other field, no event).  With two strikes it is a
    strikeout: the event [strikeout] of the current batter is appended;
    the live state is [rotateIfThree] of the state with one more out,
    strikes 0 and the offense cursor moved to [(i + 1) % length], so
    [rotateSides] runs once exactly when the outs reach 3. *)
Theorem logStrike_contract (evid : string) (ts : Z) (st : GameStoreState)
    (l : LiveGameState) :
  live st = Some l ->
  (strikes l < 2 ->
     logStrike evid ts st
     = Some (mkStore (mode st) (Some (with_strikes l (strikes l + 1)))
               (events st) (recentPlays st))) /\
  (strikes l = 2 ->
   forall lu b,
     lineups l !! offenseTeamId l = Some lu -> getCurrentBatter lu = Some b ->
     let ev := createEventPayload evid ts l
                 (mkOv (Some ev_strikeout) None None None None None None) (playerId b) in
     let mid := with_lineups (with_outs (with_strikes l 0) (outs l + 1))
                  (<[offenseTeamId l := moveToNextBatter lu]> (lineups l)) in
     exists st',
       logStrike evid ts st = Some st' /\
       events st' = events st ++ [ev] /\ eventType ev = ev_strikeout /\
       batterId ev = playerId b /\
       outs mid = outs l + 1 /\ strikes mid = 0 /\
       currentIndex (moveToNextBatter lu)
         = Z.rem (currentIndex lu + 1) (Z.of_nat (length (lineup lu))) /\
       live st' = Some (if 3 <=? outs l + 1 then rotateSides mid else mid)).
Proof.
  intros Hl. split.
  - intros Hs. unfold logStrike. rewrite Hl.
    apply Z.ltb_lt in Hs. rewrite Hs. reflexivity.
  - intros Hs lu b Hlu Hb ev mid.
    unfold logStrike. rewrite Hl.
    assert ((strikes l <? 2) = false) as -> by (apply Z.ltb_ge; lia).
    rewrite Hlu. simpl. rewrite Hb. simpl.
    eexists. split; [reflexivity|].
    unfold with_live_append, appendEvent. simpl.
    repeat split; try reflexivity.
Qed.

Lemma logStrike_contract_witness :
  exists st', logStrike "e1" 5 (mkStore live_mode (Some (with_strikes fresh_live 2)) [] [])
              = Some st' /\ live st' = Some
                (with_lineups (with_outs (with_strikes (with_strikes fresh_live 2) 0) 1)
                   (<[ "A" := mkLineup "A" [mkSlot "a1" 1; mkSlot "a2" 2; mkSlot "a3" 3] 1 ]>
                      (lineups fresh_live))).
Proof.
  destruct (logStrike_contract "e1" 5 (mkStore live_mode (Some (with_strikes fresh_live 2)) [] [])
              (with_strikes fresh_live 2) eq_refl) as [_ H].
  destruct (H eq_refl (mkLineup "A" [mkSlot "a1" 1; mkSlot "a2" 2; mkSlot "a3" 3] 0)
              (mkSlot "a1" 1) eq_refl eq_refl)
    as (st' & Hst & _ & _ & _ & _ & _ & _ & Hlive).
  exists st'. split; [exact Hst|]. rewrite Hlive. reflexivity.
Defined.

(** Claim C6.  [rotateSides] flips the half, adds an inning only after a
    bottom half, zeroes outs and strikes, empties the bases, swaps
    offense and defense and raises [plannedInnings] to the new inning;
    and every reducer whose out brings the count from 2 to 3 ends in
    exactly that state. *)
Theorem rotateSides_on_third_out :
  (forall l : LiveGameState,
     let r := rotateSides l in
     lhalf r = toggleHalf (lhalf l) /\
     linning r = (match lhalf l with bottom => linning l + 1 | top => linning l end) /\
     outs r = 0 /\ strikes r = 0 /\ bases r = EMPTY_BASES /\
     offenseTeamId r = defenseTeamId l /\ defenseTeamId r = offenseTeamId l /\
     plannedInnings r = Z.max (plannedInnings l) (linning r)) /\
  (forall evid ts a st l st' l',
     live st = Some l -> outs l = 2 -> adds_out a l ->
     reduce evid ts a st = Some st' -> live st' = Some l' ->
     lhalf l' = toggleHalf (lhalf l) /\
     linning l' = (match lhalf l with bottom => linning l + 1 | top => linning l end) /\
     outs l' = 0 /\ strikes l' = 0 /\ bases l' = EMPTY_BASES /\
     offenseTeamId l' = defenseTeamId l /\ defenseTeamId l' = offenseTeamId l /\
     plannedInnings l' = Z.max (plannedInnings l) (linning l')).
Proof.
  split.
  - intros l r. subst r. unfold rotateSides. simpl.
    repeat split; reflexivity.
  - intros evid ts a st l st' l' Hl Ho Ha Hr Hl'.
    assert (Hrot : forall m, outs m = 3 -> rotateIfThree m = rotateSides m)
      by (intros m Hm; unfold rotateIfThree; rewrite Hm; reflexivity).
    destruct a as [t| |d|d|r d success]; simpl in Ha; try contradiction;
      unfold reduce, logStrike, logError, logCaughtOut, logSteal in Hr; rewrite Hl in Hr.
    all: try rewrite (proj2 (Z.ltb_ge (strikes l) 2) Ha) in Hr;
      try (subst success; simpl in Hr);
      split_binds; subst; simpl in Hl';
      rewrite Hrot in Hl' by (simpl; lia); injection Hl' as <-;
      unfold rotateSides; simpl; repeat split; reflexivity.
Qed.

Lemma rotateSides_on_third_out_witness :
  exists st' l', reduce "e1" 0 (ACaughtOut "b1") (mkStore live_mode (Some (with_outs fresh_live 2)) [] [])
                 = Some st' /\ live st' = Some l' /\ lhalf l' = bottom /\ offenseTeamId l' = "B".
Proof.
  do 2 eexists. split; [reflexivity|]. split; [reflexivity|].
  destruct rotateSides_on_third_out as [_ H].
  destruct (H "e1" 0 (ACaughtOut "b1") (mkStore live_mode (Some (with_outs fresh_live 2)) [] [])
              (with_outs fresh_live 2) _ _ eq_refl eq_refl I eq_refl eq_refl)
    as (Hh & _ & _ & _ & _ & Ho & _).
  split; [exact Hh | exact Ho].
Defined.

(** Claim C2 (defect).  From a fresh game, a strike with no strikes yet
    returns a store whose event log is unchanged: no event is appended. *)
Theorem logStrike_fresh_appends_nothing :
  exists st', logStrike "e1" 0 fresh_store = Some st' /\
              events st' = [] /\ events fresh_store = [] /\
              live st' = Some (with_strikes fresh_live 1).
Proof. eexists. split; [reflexivity|]. repeat split; reflexivity. Qed.

(** Claim C3, as stated, fails: a successful steal on a fresh game (no
    base occupied) is not rejected; it appends an event. *)
Lemma logSteal_empty_bases_not_rejected :
  exists st', logSteal "e1" 0 "a2" "b1" true fresh_store = Some st' /\
              events fresh_store = [] /\ length (events st') = 1%nat.
Proof. eexists. split; [reflexivity|]. split; reflexivity. Qed.

(** Claim C3, amended.  A steal applied when no base is occupied is not
    rejected: it appends one steal event of the current batter with no
    runs and unchanged (empty) bases; a successful one leaves the live
    state as it was, a failed one adds an out and rotates sides on the
    third. *)
Theorem logSteal_empty_bases (evid : string) (ts : Z) (runner defender : string)
    (success : bool) (st : GameStoreState) (l : LiveGameState)
    (lu : TeamLineupState) (b : LineupSlot) :
  live st = Some l -> bases l = EMPTY_BASES -> outs l < 3 ->
  lineups l !! offenseTeamId l = Some lu -> getCurrentBatter lu = Some b ->
  logSteal evid ts runner defender success st
  = Some (with_live_append st
            (if success then l else rotateIfThree (with_outs l (outs l + 1)))
            (createEventPayload evid ts l
               (mkOv (Some (if success then ev_steal_success else ev_steal_fail))
                  (Some defender) (Some runner) (Some EMPTY_BASES) (Some EMPTY_BASES)
                  (Some 0) (Some 0))
               (playerId b))).
Proof.
  intros Hl Hb Ho Hlu Hcb.
  unfold logSteal. rewrite Hl, Hb.
  destruct success; simpl; rewrite Hlu; simpl; rewrite Hcb; simpl.
  - assert (Hr : rotateIfThree (with_bases l EMPTY_BASES) = l).
    { unfold rotateIfThree. destruct l; simpl in *. subst.
      assert ((3 <=? outs0) = false) as -> by (apply Z.leb_gt; lia). reflexivity. }
    change (cloneBases EMPTY_BASES) with EMPTY_BASES. rewrite Hr. reflexivity.
  - destruct l; simpl in *; subst. reflexivity.
Qed.

Lemma logSteal_empty_bases_witness :
  live fresh_store = Some fresh_live /\ bases fresh_live = EMPTY_BASES /\ outs fresh_live < 3 /\
  exists st', logSteal "e1" 0 "a2" "b1" false fresh_store = Some st' /\
              live st' = Some (with_outs fresh_live 1).
Proof.
  split; [reflexivity|]. split; [reflexivity|]. split; [simpl; lia|].
  eexists. split.
  - apply (logSteal_empty_bases "e1" 0 "a2" "b1" false fresh_store fresh_live
             (mkLineup "A" [mkSlot "a1" 1; mkSlot "a2" 2; mkSlot "a3" 3] 0) (mkSlot "a1" 1));
      [reflexivity | reflexivity | simpl; lia | reflexivity | reflexivity].
  - reflexivity.
Defined.

End ReducerProofs.

(* ------------------------------------------------------------------ *)
(** ** Aggregator *)

Section AggregatorProofs.
Import Baseball GameStore Stats.

Lemma lookup_totals_credit (s : TotalsStore) (pid p : string) (d : Totals) :
  lookup_totals (credit s pid d) p
  = if String.eqb pid p then add_totals (lookup_totals s p) d else lookup_totals s p.
Proof.
  induction s as [|[q t] rest IH]; simpl.
  - destruct (String.eqb pid p); reflexivity.
  - destruct (String.eqb q pid) eqn:Eq; simpl.
    + apply String.eqb_eq in Eq. subst q.
      destruct (String.eqb pid p); reflexivity.
    + rewrite IH. destruct (String.eqb q p) eqn:Eqp; [|reflexivity].
      apply String.eqb_eq in Eqp. subst q.
      destruct (String.eqb pid p) eqn:E2; [|reflexivity].
      apply String.eqb_eq in E2. subst. rewrite String.eqb_refl in Eq. discriminate.
Qed.

Lemma aggregate_totals_snoc (evs : list GameEvent) (e : GameEvent) :
  aggregate_totals (evs ++ [e]) = fold_event (aggregate_totals evs) e.
Proof. unfold aggregate_totals. rewrite fold_left_app. reflexivity. Qed.


Lemma filter_implied {A} (p q : A -> bool) (l : list A) :
  (forall x, p x = true -> q x = true) ->
  List.filter p (List.filter q l) = List.filter p l.
Proof.
  intros H. induction l as [|x l IH]; simpl; [reflexivity|].
  destruct (q x) eqn:Eq; simpl.
  - destruct (p x); rewrite IH; reflexivity.
  - destruct (p x) eqn:Ep; [|exact IH].
    rewrite (H x Ep) in Eq. discriminate.
Qed.

Lemma totals_wf_add (a d : Totals) :
  totals_wf a -> totals_wf d -> totals_wf (add_totals a d).
Proof. unfold totals_wf; destruct a, d; simpl; lia. Qed.

Lemma totals_wf_zero : totals_wf zeroTotals.
Proof. unfold totals_wf; simpl; lia. Qed.

Lemma credit_wf (s : TotalsStore) (pid : string) (d : Totals) :
  Forall (fun e => totals_wf (snd e)) s -> totals_wf d ->
  Forall (fun e => totals_wf (snd e)) (credit s pid d).
Proof.
  intros Hs Hd. induction Hs as [|[q t] rest Ht Hrest IH]; simpl.
  - constructor; [|constructor]. apply totals_wf_add; [apply totals_wf_zero|exact Hd].
  - destruct (String.eqb q pid); constructor; try assumption.
    apply totals_wf_add; assumption.
Qed.

Lemma hit_delta_wf (ev : GameEvent) :
  eventBaseValue (eventType ev) <> 0 -> totals_wf (hit_delta ev).
Proof.
  unfold hit_delta, totals_wf. destruct (eventType ev); simpl; intros H;
    try (exfalso; apply H; reflexivity); lia.
Qed.

Lemma fold_event_wf (acc : TotalsStore * Participation) (ev : GameEvent) :
  Forall (fun e => totals_wf (snd e)) (fst acc) ->
  Forall (fun e => totals_wf (snd e)) (fst (fold_event acc ev)).
Proof.
  destruct acc as [s gp]. simpl. intros Hs.
  assert (Hz := credit_wf s (batterId ev) zeroTotals Hs totals_wf_zero).
  unfold fold_event.
  destruct (eventType ev) eqn:Et; simpl;
    repeat match goal with
           | |- context [match truthy_id ?o with _ => _ end] => destruct (truthy_id o)
           end; simpl;
    repeat (apply credit_wf; [| try (apply hit_delta_wf; rewrite Et; discriminate);
                               try (unfold totals_wf; simpl; lia)]);
    assumption.
Qed.

Lemma aggregate_totals_wf (evs : list GameEvent) :
  Forall (fun e => totals_wf (snd e)) (fst (aggregate_totals evs)).
Proof.
  unfold aggregate_totals.
  assert (Hgen : forall acc, Forall (fun e => totals_wf (snd e)) (fst acc) ->
            Forall (fun e => totals_wf (snd e)) (fst (fold_left fold_event evs acc))).
  { induction evs as [|ev evs IH]; intros acc Hacc; simpl; [exact Hacc|].
    apply IH. apply fold_event_wf. exact Hacc. }
  apply Hgen. constructor.
Qed.

Lemma insert_desc_in (k : StatKey) (x y : IndividualStatsRow) (l : list IndividualStatsRow) :
  In y (insert_desc k x l) -> y = x \/ In y l.
Proof.
  induction l as [|z l IH]; simpl.
  - intros [H|[]]. left. symmetry. exact H.
  - destruct (negb _); simpl.
    + intros [H|[H|H]]; [left; symmetry; exact H|right; left; exact H|right; right; exact H].
    + intros [H|H]; [right; left; exact H|].
      destruct (IH H) as [H'|H']; [left; exact H'|right; right; exact H'].
Qed.

Lemma sort_desc_in (k : StatKey) (rows : list IndividualStatsRow) (y : IndividualStatsRow) :
  In y (sort_desc k rows) -> In y rows.
Proof.
  unfold sort_desc.
  assert (Hgen : forall acc, In y (fold_left (fun acc r => insert_desc k r acc) rows acc) ->
                             In y acc \/ In y rows).
  { induction rows as [|r rows IH]; simpl; intros acc H; [left; exact H|].
    destruct (IH _ H) as [H'|H'].
    - destruct (insert_desc_in k r y acc H') as [->|H'']; [right; left; reflexivity|left; exact H''].
    - right; right; exact H'. }
  intros H. destruct (Hgen [] H) as [[]|H']. exact H'.
Qed.

Lemma rate_bounds (x atb k : Z) :
  0 <= x -> x <= k * atb -> 0 <= atb -> 0 <= k ->
  (0 <= rate x atb /\ rate x atb <= inject_Z k)%Q.
Proof.
  intros Hx Hk Ha Hk0. unfold rate.
  destruct (Z.eqb atb 0) eqn:E.
  - split; [apply Qle_refl|]. change 0%Q with (inject_Z 0). rewrite <- Zle_Qle. exact Hk0.
  - apply Z.eqb_neq in E.
    assert (Hpos : (0 < inject_Z atb)%Q).
    { change 0%Q with (inject_Z 0). rewrite <- Zlt_Qlt. lia. }
    split.
    + apply Qle_shift_div_l; [exact Hpos|].
      rewrite Qmult_0_l. change 0%Q with (inject_Z 0). rewrite <- Zle_Qle. exact Hx.
    + apply Qle_shift_div_r; [exact Hpos|].
      rewrite <- inject_Z_mult, <- Zle_Qle. exact Hk.
Qed.

End AggregatorProofs.

(* ------------------------------------------------------------------ *)
(** ** Leaderboard scopes and rates *)

Section Leaderboard.
Import Baseball GameStore Stats Fixtures.

(** Claim C8 (counterexample).  Under the overall scope an event whose
    game id matches no supplied game is not skipped: a strikeout logged
    against an unknown game still gives its batter a row with one at-bat. *)
Lemma overall_counts_unresolved_event :
  known_game [] stray_strikeout = false /\
  map (fun r => (r_playerId r, s_atBats (stats r)))
    (buildIndividualLeaderboard [stray_strikeout] [] [] overall None None k_slugging 2026)
  = [("p", 1)].
Proof. split; vm_compute; reflexivity. Qed.

(** Claim C8 (amended).  Under the year and league scopes, events whose
    game id matches no supplied game are skipped: dropping them first
    yields the same leaderboard.  Under the overall scope the game list is
    not consulted at all, so every event is aggregated whatever its game id. *)
Theorem leaderboard_scope_unresolved (evs : list GameEvent) (games : list Game)
    (players : list PlayerIdentity) (optYear : option Z) (optLeague : option string)
    (sortBy : StatKey) (nowYear : Z) :
  buildIndividualLeaderboard evs games players year optYear optLeague sortBy nowYear
  = buildIndividualLeaderboard (List.filter (known_game games) evs) games players year
      optYear optLeague sortBy nowYear /\
  buildIndividualLeaderboard evs games players league optYear optLeague sortBy nowYear
  = buildIndividualLeaderboard (List.filter (known_game games) evs) games players league
      optYear optLeague sortBy nowYear /\
  buildIndividualLeaderboard evs games players overall optYear optLeague sortBy nowYear
  = buildIndividualLeaderboard evs [] players overall optYear optLeague sortBy nowYear.
Proof.
  unfold buildIndividualLeaderboard, filterEventsByScope.
  split; [|split; [|reflexivity]];
    rewrite filter_implied; try reflexivity;
    intros ev; unfold known_game;
    destruct (game_lookup games (gameId ev)); congruence.
Qed.

(** Claim C9.  In every row of the individual leaderboard, battingAverage
    is hits / atBats and slugging is (singles + 2 doubles + 3 triples +
    4 homeruns) / atBats, both 0 when atBats is 0; battingAverage lies in
    [0, 1] and slugging in [0, 4], for every input. *)
Theorem leaderboard_rates (evs : list GameEvent) (games : list Game)
    (players : list PlayerIdentity) (scope : StatScope) (optYear : option Z)
    (optLeague : option string) (sortBy : StatKey) (nowYear : Z) :
  Forall (fun r =>
    let st := stats r in
    battingAverage st = rate (s_hits st) (s_atBats st) /\
    slugging st = rate (s_singles st + 2 * s_doubles st + 3 * s_triples st
                        + 4 * s_homeruns st) (s_atBats st) /\
    (s_atBats st = 0 -> battingAverage st = 0%Q /\ slugging st = 0%Q) /\
    (0 <= battingAverage st <= 1)%Q /\ (0 <= slugging st <= 4)%Q)
    (buildIndividualLeaderboard evs games players scope optYear optLeague sortBy nowYear).
Proof.
  unfold buildIndividualLeaderboard.
  set (scoped := filterEventsByScope evs games scope optYear optLeague nowYear).
  assert (Hwf := aggregate_totals_wf scoped).
  destruct (aggregate_totals scoped) as [totals gp]. simpl in Hwf.
  apply List.Forall_forall. intros r Hr.
  apply sort_desc_in, in_map_iff in Hr as [[pid t] [<- Hin]].
  rewrite List.Forall_forall in Hwf. specialize (Hwf _ Hin). simpl in Hwf.
  destruct Hwf as (Hs & Hd & Htr & Hh & Hhits & Htb & Hle).
  unfold make_row. simpl.
  rewrite <- Htb.
  split; [reflexivity|]. split; [reflexivity|]. split.
  - intros H0. unfold rate. rewrite H0. split; reflexivity.
  - split.
    + apply (rate_bounds (t_hits t) (atBats t) 1); lia.
    + apply (rate_bounds (totalBases t) (atBats t) 4); lia.
Qed.

End Leaderboard.

(* ------------------------------------------------------------------ *)
(** ** Undo over the event log *)

Section UndoProofs.
Import Baseball GameStore Undo Fixtures.

(** Claim C1 (defect).  From a fresh game, a strike with no strikes yet
    changes the live state (strikes 0 to 1) but logs no event; undo then
    finds an empty log and does nothing, so the state before the strike is
    not restored. *)
Theorem undo_after_first_strike :
  let st := dispatch "e1" 0 AStrike fresh_store in
  events st = [] /\
  undoLast fresh_store st = st /\
  option_map strikes (live (undoLast fresh_store st)) = Some 1 /\
  option_map strikes (live fresh_store) = Some 0 /\
  undoLast fresh_store st <> fresh_store.
Proof.
  simpl. split; [reflexivity|]. split; [reflexivity|].
  split; [reflexivity|]. split; [reflexivity|].
  intros H. apply (f_equal (fun s => option_map strikes (live s))) in H.
  vm_compute in H. discriminate.
Qed.

End UndoProofs.

(* ------------------------------------------------------------------ *)
(** ** Steal events and their RBI credit *)

Section StealCredit.
Import Baseball GameStore Stats Fixtures.




End StealCredit.

(* ------------------------------------------------------------------ *)
(** ** Run totals *)

Section RunTotals.
Import Baseball GameStore Totals.











End RunTotals.

(* ------------------------------------------------------------------ *)
(** ** Further properties of utils/baseball *)

(** Case on every string comparison of the goal. *)
Ltac case_eqbs :=
  repeat match goal with
  | |- context [String.eqb ?x ?y] => destruct (String.eqb_spec x y)
  end.

Section BaseExtraProofs.
Import Baseball BaseballExtra HitSpec.

(** [registerCaughtOut] with a non-empty runner id empties exactly the
    bases holding that runner and keeps every other base; with no runner
    id, or an empty one, it changes nothing.  [before] is the input. *)
Theorem registerCaughtOut_spec (b : BaseState) (r : string) :
  r <> "" ->
  cbefore (registerCaughtOut b (Some r)) = b /\
  (forall k, get_base (cafter (registerCaughtOut b (Some r))) k
             = if holds b k r then None else get_base b k) /\
  cafter (registerCaughtOut b None) = b /\
  cafter (registerCaughtOut b (Some "")) = b.
Proof.
  intros Hr. destruct b as [f s t].
  unfold registerCaughtOut, truthy.
  assert (String.eqb r "" = false) as Er by (apply String.eqb_neq; exact Hr).
  rewrite Er. simpl.
  split; [reflexivity|]. split; [|split; reflexivity].
  intros k. unfold holds.
  destruct f as [f|], s as [s|], t as [t|]; simpl;
    repeat match goal with
    | |- context [String.eqb ?x ?y] => destruct (String.eqb x y) eqn:?; simpl
    end;
    destruct k; simpl;
    repeat match goal with H : String.eqb _ _ = _ |- _ => rewrite H end; reflexivity.
Qed.

Lemma registerCaughtOut_spec_witness :
  "a2" <> "" /\
  get_base (cafter (registerCaughtOut (mkBases (Some "a1") (Some "a2") None) (Some "a2")))
    Second = None.
Proof.
  split; [discriminate|].
  destruct (registerCaughtOut_spec (mkBases (Some "a1") (Some "a2") None) "a2")
    as (_ & Hk & _ & _); [discriminate|].
  rewrite (Hk Second). reflexivity.
Defined.



(** [resolveSteal] on a base state of player ids loses no runner.  On a
    success, the runners left on base plus the runs scored are the
    runners before, and a run scores exactly when third was occupied.  On
    a failure no run scores and exactly one runner leaves the bases when
    [runnerId] is found on a base, none otherwise. *)
Theorem resolveSteal_conserves (b : BaseState) (r : string) :
  wf_bases b = true ->
  (let res := resolveSteal b r true in
   sbefore res = b /\
   runner_count (safter res) + srunsScored res = runner_count b /\
   srunsScored res = match third b with Some _ => 1 | None => 0 end) /\
  (let res := resolveSteal b r false in
   sbefore res = b /\ srunsScored res = 0 /\
   runner_count (safter res)
   = runner_count b - match locateRunner b r with Some _ => 1 | None => 0 end).
Proof.
  intros Hwf. destruct b as [f s t]; unfold wf_bases in Hwf; simpl in Hwf.
  destruct f as [f|], s as [s|], t as [t|]; simpl in Hwf;
    repeat (apply andb_prop in Hwf; destruct Hwf as [? Hwf]);
    repeat match goal with H : negb _ = true |- _ => apply negb_true_iff in H end;
    unfold resolveSteal, locateRunner, truthy; simpl;
    repeat match goal with H : String.eqb _ _ = false |- _ => rewrite H end; simpl;
    case_eqbs; subst; simpl in *; try discriminate; repeat split; reflexivity.
Qed.

Lemma resolveSteal_conserves_witness :
  wf_bases (mkBases (Some "a") None (Some "c")) = true /\
  srunsScored (resolveSteal (mkBases (Some "a") None (Some "c")) "c" true) = 1.
Proof.
  split; [reflexivity|].
  destruct (resolveSteal_conserves (mkBases (Some "a") None (Some "c")) "c" eq_refl)
    as [(_ & _ & H) _].
  exact H.
Defined.

(** Two consecutive [rotateSides] (a full inning) give back the same half
    and the same batting and fielding teams, one inning later, with the
    count and the bases cleared and the planned innings raised to at
    least the new inning. *)
Theorem rotateSides_twice (l : GameStore.LiveGameState) :
  let l2 := GameStore.rotateSides (GameStore.rotateSides l) in
  GameStore.linning l2 = GameStore.linning l + 1 /\ GameStore.lhalf l2 = GameStore.lhalf l /\
  GameStore.offenseTeamId l2 = GameStore.offenseTeamId l /\
  GameStore.defenseTeamId l2 = GameStore.defenseTeamId l /\
  GameStore.outs l2 = 0 /\ GameStore.strikes l2 = 0 /\ GameStore.bases l2 = EMPTY_BASES /\
  GameStore.plannedInnings l2 = Z.max (GameStore.plannedInnings l) (GameStore.linning l + 1) /\
  GameStore.scoreboard l2 = GameStore.scoreboard l /\ GameStore.lineups l2 = GameStore.lineups l.
Proof.
  destruct l as [g i h o st off def bs sb lu p c]. simpl.
  destruct h; simpl; repeat split; try reflexivity; lia.
Qed.

Lemma rem_nonneg_mod (a n : Z) : 0 <= a -> 0 < n -> Z.rem a n = a mod n.
Proof. intros Ha Hn. apply Z.rem_mod_nonneg; lia. Qed.

(** With a non-empty lineup and a cursor inside it, after [k] calls of
    [moveToNextBatter] the lineup is unchanged, the cursor is
    [(i + k) mod n] and [getCurrentBatter] returns the slot there: the
    batting order wraps around, and after [n] moves it is back at the
    starting batter. *)
Theorem batting_order_wraps (l : TeamLineupState) (k : nat) :
  0 <= currentIndex l < Z.of_nat (length (lineup l)) ->
  let l' := Nat.iter k moveToNextBatter l in
  lineup l' = lineup l /\
  currentIndex l' = (currentIndex l + Z.of_nat k) mod Z.of_nat (length (lineup l)) /\
  (exists slot, getCurrentBatter l' = Some slot /\
     nth_error (lineup l)
       (Z.to_nat ((currentIndex l + Z.of_nat k) mod Z.of_nat (length (lineup l))))
     = Some slot) /\
  currentIndex (Nat.iter (length (lineup l)) moveToNextBatter l) = currentIndex l.
Proof.
  intros Hi l'. set (n := Z.of_nat (length (lineup l))).
  assert (Hn : 0 < n) by lia.
  assert (Hgen : forall m, lineup (Nat.iter m moveToNextBatter l) = lineup l /\
            currentIndex (Nat.iter m moveToNextBatter l) = (currentIndex l + Z.of_nat m) mod n).
  { induction m as [|m [IHl IHc]].
    - simpl. split; [reflexivity|]. rewrite Z.add_0_r. symmetry. apply Z.mod_small. lia.
    - rewrite Nat.iter_succ. set (x := Nat.iter m moveToNextBatter l) in *.
      unfold moveToNextBatter. cbn [lineup currentIndex].
      rewrite IHl, IHc. split; [reflexivity|].
      fold n. rewrite rem_nonneg_mod; [|pose proof (Z.mod_pos_bound (currentIndex l + Z.of_nat m) n Hn); lia|lia].
      rewrite Zplus_mod_idemp_l. f_equal. lia. }
  destruct (Hgen k) as [Hl Hc].
  split; [exact Hl|]. split; [exact Hc|]. split.
  - subst l'. unfold getCurrentBatter. rewrite Hl, Hc. fold n.
    assert (Z.eqb n 0 = false) as -> by (apply Z.eqb_neq; lia).
    pose proof (Z.mod_pos_bound (currentIndex l + Z.of_nat k) n Hn) as Hb.
    rewrite Z.rem_small by lia.
    assert (((currentIndex l + Z.of_nat k) mod n <? 0) = false) as -> by (apply Z.ltb_ge; lia).
    destruct (nth_error (lineup l) (Z.to_nat ((currentIndex l + Z.of_nat k) mod n))) eqn:E.
    + exists l0. split; reflexivity.
    + apply nth_error_None in E. lia.
  - destruct (Hgen (length (lineup l))) as [_ Hc2]. rewrite Hc2. fold n.
    rewrite Z.add_comm, <- Zplus_mod_idemp_l, Z_mod_same_full, Z.add_0_l.
    apply Z.mod_small. lia.
Qed.

Lemma batting_order_wraps_witness :
  0 <= currentIndex (mkLineup "A" [mkSlot "a1" 1; mkSlot "a2" 2] 1)
    < Z.of_nat (length (lineup (mkLineup "A" [mkSlot "a1" 1; mkSlot "a2" 2] 1))) /\
  getCurrentBatter (Nat.iter 1 moveToNextBatter (mkLineup "A" [mkSlot "a1" 1; mkSlot "a2" 2] 1))
  = Some (mkSlot "a1" 1).
Proof.
  split; [simpl; lia|].
  destruct (batting_order_wraps (mkLineup "A" [mkSlot "a1" 1; mkSlot "a2" 2] 1) 1)
    as (_ & _ & [slot [Hs Hn]] & _); [simpl; lia|].
  rewrite Hs. simpl in Hn. injection Hn as <-. reflexivity.
Defined.

End BaseExtraProofs.

(* ------------------------------------------------------------------ *)
(** ** The steal controls of the live screen *)

Section LiveScreenProofs.
Import Baseball BaseballExtra HitSpec GameStore LiveScreen.

(** On bases holding distinct player ids, whenever the screen picks a
    runner ([third ?? second ?? first]), stealing is enabled and the
    picker issues the steal with that runner.  [resolveSteal] then moves
    exactly that runner: a failed steal takes the runner off their base
    and leaves every other base as it was; a successful one moves the
    runner one base up (a run from third) and leaves every other base as
    it was. *)
Theorem screen_steal_moves_lead_runner (b : BaseState) (r d : string) (s : bool) :
  wf_bases b = true -> NoDup (occupants b) -> screenRunnerId b = Some r ->
  canSteal b = true /\ stealAction b d s = Some (ASteal r d s) /\
  (forall k, get_base (safter (resolveSteal b r false)) k
             = if holds b k r then None else get_base b k) /\
  srunsScored (resolveSteal b r true) = (if holds b Third r then 1 else 0) /\
  (forall k, get_base (safter (resolveSteal b r true)) k
             = if holds b k r then None
               else match prev_base k with
                    | Some k' => if holds b k' r then Some r else get_base b k
                    | None => get_base b k
                    end).
Proof.
  intros Hwf Hnd Hr. destruct b as [f s2 t]; unfold wf_bases in Hwf; simpl in Hwf.
  destruct f as [f|], s2 as [s2|], t as [t|]; simpl in Hwf, Hr;
    try discriminate Hr; injection Hr as <-;
    repeat (apply andb_prop in Hwf; destruct Hwf as [? Hwf]);
    repeat match goal with H : negb _ = true |- _ => apply negb_true_iff in H end;
    unfold occupants in Hnd; simpl in Hnd;
    repeat rewrite NoDup_cons in Hnd;
    unfold canSteal, stealAction, resolveSteal, locateRunner, holds, truthy; simpl;
    repeat match goal with H : String.eqb _ _ = false |- _ => rewrite H end; simpl;
    (split; [reflexivity|]); (split; [reflexivity|]);
    repeat split; try intros k; try destruct k; simpl;
    case_eqbs; subst; simpl in *; try discriminate; try reflexivity;
    exfalso; set_solver.
Qed.

Lemma screen_steal_moves_lead_runner_witness :
  wf_bases (mkBases (Some "a1") (Some "a2") None) = true /\
  NoDup (occupants (mkBases (Some "a1") (Some "a2") None)) /\
  screenRunnerId (mkBases (Some "a1") (Some "a2") None) = Some "a2" /\
  get_base (safter (resolveSteal (mkBases (Some "a1") (Some "a2") None) "a2" true)) Third
  = Some "a2".
Proof.
  assert (Hnd : NoDup (occupants (mkBases (Some "a1") (Some "a2") None))).
  { unfold occupants. simpl. repeat constructor; set_solver. }
  split; [reflexivity|]. split; [exact Hnd|]. split; [reflexivity|].
  destruct (screen_steal_moves_lead_runner (mkBases (Some "a1") (Some "a2") None) "a2" "b1" true
              eq_refl Hnd eq_refl) as (_ & _ & _ & _ & Hk).
  rewrite (Hk Third). reflexivity.
Defined.

End LiveScreenProofs.

(* ------------------------------------------------------------------ *)
(** ** Invariants of the scoring reducers over a game *)

Section RunInvariants.
Import Baseball GameStore Totals Counts.

Lemma run_invariant (P : GameStoreState -> Prop) :
  (forall evid ts a st st', P st -> reduce evid ts a st = Some st' -> P st') ->
  forall acts st, P st -> P (run acts st).
Proof.
  intros Hstep acts. induction acts as [|[[evid ts] a] rest IH]; intros st Hst; simpl.
  - exact Hst.
  - apply IH. unfold dispatch. destruct (reduce evid ts a st) eqn:Hr; [|exact Hst].
    eapply Hstep; eassumption.
Qed.

Lemma reduce_no_live (evid : string) (ts : Z) (a : Action) (st : GameStoreState) :
  live st = None -> reduce evid ts a st = Some st.
Proof.
  intros Hl. destruct a; unfold reduce, logHit, logStrike, logError, logCaughtOut, logSteal;
    rewrite Hl; reflexivity.
Qed.

Lemma reduce_log (evid : string) (ts : Z) (a : Action) (st st' : GameStoreState) :
  reduce evid ts a st = Some st' ->
  mode st' = mode st /\
  ((events st' = events st /\ recentPlays st' = recentPlays st) \/
   exists ev, events st' = events st ++ [ev] /\ recentPlays st' = firstn 6 (ev :: recentPlays st)).
Proof.
  destruct (live st) as [l|] eqn:Hl.
  2:{ rewrite (reduce_no_live evid ts a st Hl). intros [= <-]. split; [reflexivity|].
      left; split; reflexivity. }
  intros Hr.
  destruct a as [t| |d|d|r d success];
    unfold reduce, logHit, logStrike, logError, logCaughtOut, logSteal in Hr;
    rewrite Hl in Hr.
  - split_binds; subst. split; [reflexivity|]. right. eexists. split; reflexivity.
  - destruct (strikes l <? 2).
    + injection Hr as <-. split; [reflexivity|]. left. split; reflexivity.
    + split_binds; subst. split; [reflexivity|]. right. eexists. split; reflexivity.
  - split_binds; subst; (split; [reflexivity|]); right; eexists; split; reflexivity.
  - split_binds; subst. split; [reflexivity|]. right. eexists. split; reflexivity.
  - destruct success; simpl in Hr; split_binds; subst;
      (split; [reflexivity|]); right; eexists; split; reflexivity.
Qed.

(** The event log is append-only: any sequence of scoring actions keeps
    the events already logged, in order, and appends at most one event
    per action. *)
Theorem run_appends_events (acts : list (string * Z * Action)) (st : GameStoreState) :
  exists added, events (run acts st) = events st ++ added /\ (length added <= length acts)%nat.
Proof.
  revert st. induction acts as [|[[evid ts] a] rest IH]; intros st; simpl.
  - exists (@nil GameEvent). rewrite app_nil_r. split; [reflexivity|simpl; lia].
  - destruct (IH (dispatch evid ts a st)) as [added [Ha Hlen]].
    unfold dispatch in *. destruct (reduce evid ts a st) as [st'|] eqn:Hr.
    + destruct (reduce_log evid ts a st st' Hr) as [_ [[He _] | [ev [He _]]]].
      * exists added. rewrite Ha, He. split; [reflexivity|lia].
      * exists (ev :: added). rewrite Ha, He, <- app_assoc. split; [reflexivity|simpl; lia].
    + exists added. split; [exact Ha|lia].
Qed.

Lemma firstn_6_snoc (evs : list GameEvent) (ev : GameEvent) :
  firstn 6 (ev :: firstn 6 (rev evs)) = firstn 6 (rev (evs ++ [ev])).
Proof.
  rewrite rev_app_distr. simpl. f_equal. rewrite firstn_firstn. reflexivity.
Qed.

(** [recentPlays] is always the last six logged events, newest first:
    from any store where it is (a freshly started game has both empty),
    it stays so under any sequence of scoring actions. *)
Theorem recentPlays_last_six (acts : list (string * Z * Action)) (st : GameStoreState) :
  recentPlays st = firstn 6 (rev (events st)) ->
  recentPlays (run acts st) = firstn 6 (rev (events (run acts st))).
Proof.
  apply (run_invariant (fun st => recentPlays st = firstn 6 (rev (events st)))).
  intros evid ts a s s' Hs Hr.
  destruct (reduce_log evid ts a s s' Hr) as [_ [[He Hp] | [ev [He Hp]]]].
  - rewrite He, Hp. exact Hs.
  - rewrite He, Hp, Hs. apply firstn_6_snoc.
Qed.

Lemma recentPlays_last_six_witness :
  recentPlays (Fixtures.fresh_store) = firstn 6 (rev (events Fixtures.fresh_store)) /\
  recentPlays (run [("e1", 0, ACaughtOut "b1")] Fixtures.fresh_store)
  = firstn 6 (rev (events (run [("e1", 0, ACaughtOut "b1")] Fixtures.fresh_store))).
Proof.
  split; [reflexivity|].
  apply (recentPlays_last_six [("e1", 0, ACaughtOut "b1")] Fixtures.fresh_store). reflexivity.
Defined.

Ltac ltb_facts :=
  repeat match goal with
  | H : (_ <? _) = true |- _ => apply Z.ltb_lt in H
  | H : (_ <? _) = false |- _ => apply Z.ltb_ge in H
  end.

Lemma rotateIfThree_ok (a b : string) (m : LiveGameState) :
  0 <= outs m <= 3 -> 0 <= strikes m <= 2 -> 1 <= linning m <= plannedInnings m ->
  ((lhalf m = top /\ offenseTeamId m = a /\ defenseTeamId m = b) \/
   (lhalf m = bottom /\ offenseTeamId m = b /\ defenseTeamId m = a)) ->
  counters_ok a b (rotateIfThree m).
Proof.
  intros Ho Hs Hi Hside. unfold rotateIfThree, counters_ok.
  destruct (3 <=? outs m) eqn:E.
  - destruct m as [g i h o st off def bs sb lu p c]; simpl in *.
    destruct Hside as [(-> & -> & ->) | (-> & -> & ->)]; simpl;
      repeat split; try lia; [right | left]; repeat split.
  - apply Z.leb_gt in E. repeat split; try lia. exact Hside.
Qed.

Lemma reduce_counters (a b evid : string) (ts : Z) (act : Action) (st st' : GameStoreState)
    (l : LiveGameState) :
  live st = Some l -> counters_ok a b l -> reduce evid ts act st = Some st' ->
  exists l', live st' = Some l' /\ counters_ok a b l'.
Proof.
  intros Hl Hok Hr.
  destruct act as [t| |d|d|r d success];
    unfold reduce, logHit, logStrike, logError, logCaughtOut, logSteal in Hr;
    rewrite Hl in Hr;
    [ | destruct (strikes l <? 2) eqn:Elt | | | destruct success; simpl in Hr ];
    split_binds; subst; simpl; eexists; (split; [reflexivity|]);
    unfold counters_ok in Hok; destruct Hok as (Ho & Hs & Hi & Hside);
    destruct l; simpl in *; ltb_facts;
    first [ apply rotateIfThree_ok; simpl; try lia; exact Hside
          | unfold counters_ok; simpl; repeat split; try lia; exact Hside ].
Qed.

(** From a freshly started game between [a] and [b], after any sequence of
    scoring actions there is a live state whose outs and strikes stay in
    0..2, whose inning is at least 1 and never above the planned innings,
    and in which [a] bats in the top halves and [b] in the bottom ones. *)
Theorem counters_after_actions (gid a b : string) (lus : gmap string TeamLineupState)
    (acts : list (string * Z * Action)) :
  exists l, live (run acts (mkStore live_mode (Some (initialLiveState gid a b lus)) [] []))
            = Some l /\ counters_ok a b l.
Proof.
  apply (run_invariant (fun st => exists l, live st = Some l /\ counters_ok a b l)).
  - intros evid ts act st st' [l [Hl Hok]] Hr. eapply reduce_counters; eassumption.
  - eexists. split; [reflexivity|]. unfold counters_ok. simpl.
    repeat split; try lia. left. repeat split.
Qed.



Lemma count_events_snoc (p : GameEvent -> bool) (evs : list GameEvent) (ev : GameEvent) :
  count_events p (evs ++ [ev]) = count_events p evs + (if p ev then 1 else 0).
Proof.
  unfold count_events. rewrite List.filter_app, length_app. simpl.
  destruct (p ev); simpl; lia.
Qed.



End RunInvariants.

(* ------------------------------------------------------------------ *)
(** ** Lineups over a game *)

Section LineupInvariants.
Import Baseball GameStore.

Lemma getCurrentBatter_nonempty (lu : TeamLineupState) (b : LineupSlot) :
  getCurrentBatter lu = Some b -> (0 < length (lineup lu))%nat.
Proof.
  unfold getCurrentBatter. destruct (Z.eqb (Z.of_nat (length (lineup lu))) 0) eqn:E;
    [discriminate|]. apply Z.eqb_neq in E. lia.
Qed.

Lemma lineups_rotateIfThree (m : LiveGameState) : lineups (rotateIfThree m) = lineups m.
Proof. unfold rotateIfThree. destruct (3 <=? outs m); reflexivity. Qed.

Lemma lineups_move (L0 m : gmap string TeamLineupState) (off : string) (lu : TeamLineupState) :
  (forall t, option_map lineup (m !! t) = option_map lineup (L0 !! t) /\
     forall lu', m !! t = Some lu' -> 0 <= currentIndex lu' /\
       (currentIndex lu' < Z.of_nat (length (lineup lu')) \/ currentIndex lu' = 0)) ->
  m !! off = Some lu -> (0 < length (lineup lu))%nat ->
  forall t, option_map lineup (<[off := moveToNextBatter lu]> m !! t)
            = option_map lineup (L0 !! t) /\
     forall lu', <[off := moveToNextBatter lu]> m !! t = Some lu' -> 0 <= currentIndex lu' /\
       (currentIndex lu' < Z.of_nat (length (lineup lu')) \/ currentIndex lu' = 0).
Proof.
  intros Hinv Hlu Hlen t. destruct (decide (off = t)) as [<-|Hne].
  - rewrite lookup_insert_eq. destruct (Hinv off) as [Hl Hc].
    rewrite Hlu in Hl. specialize (Hc lu Hlu). split.
    + exact Hl.
    + intros lu' [= <-]. unfold moveToNextBatter. simpl.
      rewrite rem_nonneg_mod by lia.
      pose proof (Z.mod_pos_bound (currentIndex lu + 1) (Z.of_nat (length (lineup lu)))).
      lia.
  - rewrite lookup_insert_ne by exact Hne. apply Hinv.
Qed.

Lemma reduce_lineups (L0 : gmap string TeamLineupState) (evid : string) (ts : Z)
    (act : Action) (st st' : GameStoreState) (l : LiveGameState) :
  live st = Some l ->
  (forall t, option_map lineup (lineups l !! t) = option_map lineup (L0 !! t) /\
     forall lu, lineups l !! t = Some lu -> 0 <= currentIndex lu /\
       (currentIndex lu < Z.of_nat (length (lineup lu)) \/ currentIndex lu = 0)) ->
  reduce evid ts act st = Some st' ->
  exists l', live st' = Some l' /\
  (forall t, option_map lineup (lineups l' !! t) = option_map lineup (L0 !! t) /\
     forall lu, lineups l' !! t = Some lu -> 0 <= currentIndex lu /\
       (currentIndex lu < Z.of_nat (length (lineup lu)) \/ currentIndex lu = 0)).
Proof.
  intros Hl Hinv Hr.
  destruct act as [t| |d|d|r d success];
    unfold reduce, logHit, logStrike, logError, logCaughtOut, logSteal in Hr;
    rewrite Hl in Hr;
    [ | destruct (strikes l <? 2) eqn:Elt | | | destruct success; simpl in Hr ];
    split_binds; subst; eexists; (split; [reflexivity|]);
    rewrite ?lineups_rotateIfThree; simpl;
    first [ exact Hinv
          | apply lineups_move; [exact Hinv | eassumption
                                 | eapply getCurrentBatter_nonempty; eassumption] ].
Qed.

(** Over a friendly game started with the two teams' players, after any
    sequence of scoring actions each team's lineup keeps its slots, and
    its batting cursor stays a valid index into it (0 for an empty
    lineup). *)
Theorem lineups_after_actions (gid teamA teamB : string) (pa pb : list string)
    (acts : list (string * Z * Action)) :
  exists l, live (run acts (startGameFriendly gid teamA teamB pa pb)) = Some l /\
  forall t,
    option_map lineup (lineups l !! t)
    = option_map lineup ((<[teamB := toLineupState teamB pb]>
                            (<[teamA := toLineupState teamA pa]> (∅ : gmap string TeamLineupState))) !! t) /\
    forall lu, lineups l !! t = Some lu -> 0 <= currentIndex lu /\
      (currentIndex lu < Z.of_nat (length (lineup lu)) \/ currentIndex lu = 0).
Proof.
  set (L0 := <[teamB := toLineupState teamB pb]>
              (<[teamA := toLineupState teamA pa]> (∅ : gmap string TeamLineupState))).
  apply (run_invariant (fun st => exists l, live st = Some l /\
    forall t, option_map lineup (lineups l !! t) = option_map lineup (L0 !! t) /\
      forall lu, lineups l !! t = Some lu -> 0 <= currentIndex lu /\
        (currentIndex lu < Z.of_nat (length (lineup lu)) \/ currentIndex lu = 0))).
  - intros evid ts act st st' [l [Hl Hinv]] Hr. eapply reduce_lineups; eassumption.
  - eexists. split; [reflexivity|]. intros t. simpl. split; [reflexivity|].
    intros lu Hlu. subst L0.
    rewrite !lookup_insert_Some, lookup_empty in Hlu.
    destruct Hlu as [[_ <-] | [_ [[_ <-] | [_ Hf]]]]; [simpl; lia | simpl; lia | discriminate].
Qed.

End LineupInvariants.

(* ------------------------------------------------------------------ *)
(** ** completeGame and reset *)

Section LifecycleProofs.
Import Baseball GameStore Totals Lifecycle.








(** After [reset], scoring actions do nothing: without a live game every
    reducer returns the store unchanged, whatever the sequence. *)
Theorem reset_blocks_scoring (fs : FullStore) (acts : list (string * Z * Action)) :
  run acts (core (reset fs)) = core (reset fs) /\
  fold_left (fun f '(evid, ts, a) => full_dispatch evid ts a f) acts (reset fs) = reset fs.
Proof.
  split.
  - apply (run_invariant (fun st => st = core (reset fs))); [|reflexivity].
    intros evid ts a st st' -> Hr.
    rewrite reduce_no_live in Hr by reflexivity. injection Hr as <-. reflexivity.
  - induction acts as [|[[evid ts] a] rest IH]; simpl; [reflexivity|].
    unfold full_dispatch at 2, dispatch. rewrite reduce_no_live by reflexivity.
    exact IH.
Qed.

(** [completeGame] does not end scoring: no reducer reads the mode or
    [isComplete], so an action applied after [completeGame] gives the
    store the same action gives before it, shown as completed. *)
Theorem scoring_after_complete (playedAt : string) (fs : FullStore) (l : LiveGameState)
    (evid : string) (ts : Z) (a : Action) :
  live (core fs) = Some l ->
  reduce evid ts a (core (completeGame playedAt fs))
  = option_map mark_complete (reduce evid ts a (core fs)).
Proof.
  intros Hl. destruct fs as [[m lv evs rp] cg]. simpl in Hl. subst lv.
  unfold completeGame. simpl.
  destruct l as [g i h o st off def bs sb lu p c].
  destruct a as [t| |d|d|r d success];
    unfold reduce, logHit, logStrike, logError, logCaughtOut, logSteal; simpl;
    repeat (match goal with
            | |- context [if ?c then _ else _] => destruct c eqn:?; simpl
            | |- context [(?m !! ?k) ≫= _] => destruct (m !! k) eqn:?; simpl
            | |- context [getCurrentBatter ?t ≫= _] => destruct (getCurrentBatter t) eqn:?; simpl
            end);
    unfold with_live_append, appendEvent, rotateIfThree, rotateSides, with_lineups,
      with_outs, with_strikes, with_bases, with_scoreboard, with_complete; simpl;
    repeat (match goal with
            | |- context [if ?c then _ else _] => destruct c eqn:?; simpl
            end); reflexivity.
Qed.

Lemma scoring_after_complete_witness :
  live (core (mkFull Fixtures.fresh_store [])) = Some Fixtures.fresh_live /\
  option_map (fun st => option_map strikes (live st))
    (reduce "e1" 0 AStrike (core (completeGame "t" (mkFull Fixtures.fresh_store []))))
  = Some (Some 1).
Proof.
  split; [reflexivity|].
  rewrite (scoring_after_complete "t" (mkFull Fixtures.fresh_store []) Fixtures.fresh_live
             "e1" 0 AStrike eq_refl).
  reflexivity.
Defined.

End LifecycleProofs.

(* ------------------------------------------------------------------ *)
(** ** The stats store's [recordGame] *)

Section RecordedStatsProofs.
Import Baseball GameStore Stats RecordedStats.

Lemma find_app_or {A} (f : A -> bool) (l1 l2 : list A) :
  List.find f (l1 ++ l2) = match List.find f l1 with Some x => Some x | None => List.find f l2 end.
Proof.
  induction l1 as [|x l1 IH]; simpl; [reflexivity|].
  destruct (f x); [reflexivity|exact IH].
Qed.



End RecordedStatsProofs.

(* ------------------------------------------------------------------ *)
(** ** Leaderboard rows *)

Section LeaderboardRows.
Import Baseball GameStore Stats Counts.

Lemma credit_keys (s : TotalsStore) (pid k : string) (d : Totals) :
  In k (map fst (credit s pid d)) <-> k = pid \/ In k (map fst s).
Proof.
  induction s as [|[q t] rest IH]; simpl.
  - intuition congruence.
  - destruct (String.eqb_spec q pid) as [->|Hne]; simpl.
    + intuition congruence.
    + rewrite IH. intuition congruence.
Qed.

Lemma credit_nodup (s : TotalsStore) (pid : string) (d : Totals) :
  List.NoDup (map fst s) -> List.NoDup (map fst (credit s pid d)).
Proof.
  induction s as [|[q t] rest IH]; simpl; intros Hn.
  - constructor; [intros []|constructor].
  - apply List.NoDup_cons_iff in Hn as [Hq Hn].
    destruct (String.eqb q pid) eqn:E; simpl; constructor; try assumption.
    + rewrite credit_keys. intros [->|H]; [|contradiction].
      rewrite String.eqb_refl in E. discriminate.
    + apply IH. exact Hn.
Qed.

Lemma fold_event_credits (P : TotalsStore -> Prop) (s : TotalsStore) (gp : Participation)
    (ev : GameEvent) :
  (forall s' pid d, P s' -> P (credit s' pid d)) ->
  P (credit s (batterId ev) zeroTotals) -> P (fst (fold_event (s, gp) ev)).
Proof.
  intros Hcl H0. unfold fold_event.
  destruct (eventType ev); simpl;
    repeat match goal with
           | |- context [match truthy_id ?o with _ => _ end] => destruct (truthy_id o)
           end; simpl;
    repeat (first [exact H0 | apply Hcl]).
Qed.

Lemma aggregate_keys (evs : list GameEvent) :
  List.NoDup (map fst (fst (aggregate_totals evs))) /\
  forall ev, In ev evs -> In (batterId ev) (map fst (fst (aggregate_totals evs))).
Proof.
  induction evs as [|ev evs IH] using rev_ind.
  - split; [constructor | intros ev []].
  - rewrite aggregate_totals_snoc. destruct (aggregate_totals evs) as [s gp]. simpl in IH.
    destruct IH as [Hn Hin]. split.
    + apply fold_event_credits; [intros; apply credit_nodup; assumption|].
      apply credit_nodup. exact Hn.
    + intros e He. apply in_app_or in He as [He|[<-|[]]].
      * apply (fold_event_credits (fun s' => In (batterId e) (map fst s'))).
        -- intros s' pid d H. apply credit_keys. right. exact H.
        -- apply credit_keys. right. apply Hin. exact He.
      * apply (fold_event_credits (fun s' => In (batterId ev) (map fst s'))).
        -- intros s' pid d H. apply credit_keys. right. exact H.
        -- apply credit_keys. left. reflexivity.
Qed.

Lemma lookup_totals_in (s : TotalsStore) (p : string) (t : Totals) :
  List.NoDup (map fst s) -> In (p, t) s -> lookup_totals s p = t.
Proof.
  induction s as [|[q u] rest IH]; simpl; [contradiction|].
  intros Hn [H|H].
  - injection H as -> ->. rewrite String.eqb_refl. reflexivity.
  - apply List.NoDup_cons_iff in Hn as [Hq Hn].
    destruct (String.eqb_spec q p) as [->|Hne]; [|apply IH; assumption].
    exfalso. apply Hq. apply (in_map fst) in H. exact H.
Qed.

Lemma make_row_id (players : list PlayerIdentity) (gp : Participation) (e : string * Totals) :
  r_playerId (make_row players gp e) = fst e.
Proof. destruct e. reflexivity. Qed.

Lemma insert_desc_perm (k : StatKey) (x : IndividualStatsRow) (l : list IndividualStatsRow) :
  Permutation (insert_desc k x l) (x :: l).
Proof.
  induction l as [|y l IH]; simpl; [reflexivity|].
  destruct (negb _); [reflexivity|].
  eapply Permutation_trans; [apply perm_skip, IH|apply perm_swap].
Qed.

Lemma sort_desc_perm (k : StatKey) (rows : list IndividualStatsRow) :
  Permutation (sort_desc k rows) rows.
Proof.
  unfold sort_desc.
  assert (Hgen : forall acc, Permutation (fold_left (fun acc r => insert_desc k r acc) rows acc)
                                         (rev rows ++ acc)).
  { induction rows as [|r rows IH]; intros acc; simpl; [reflexivity|].
    eapply Permutation_trans; [apply IH|].
    rewrite <- app_assoc. simpl. apply Permutation_app_head. apply insert_desc_perm. }
  eapply Permutation_trans; [apply Hgen|]. rewrite app_nil_r.
  apply Permutation_sym, Permutation_rev.
Qed.

Lemma insert_desc_hd (k : StatKey) (x y : IndividualStatsRow) (l : list IndividualStatsRow) :
  HdRel (desc_by k) y l -> desc_by k y x -> HdRel (desc_by k) y (insert_desc k x l).
Proof.
  intros Hh Hyx. destruct l as [|z l]; simpl; [constructor; exact Hyx|].
  destruct (negb _); constructor; [exact Hyx|]. inversion Hh. assumption.
Qed.

Lemma insert_desc_sorted (k : StatKey) (x : IndividualStatsRow) (l : list IndividualStatsRow) :
  Sorted (desc_by k) l -> Sorted (desc_by k) (insert_desc k x l).
Proof.
  induction 1 as [|y l Hs IH Hhd]; simpl; [repeat constructor|].
  destruct (Qle_bool (stat_of k (stats x)) (stat_of k (stats y))) eqn:E; simpl.
  - apply Qle_bool_iff in E. constructor; [exact IH|].
    apply insert_desc_hd; [exact Hhd | exact E].
  - constructor; [constructor; assumption|]. constructor. unfold desc_by.
    apply Qlt_le_weak, Qnot_le_lt. intros Hle. apply Qle_bool_iff in Hle. congruence.
Qed.

Lemma sort_desc_sorted (k : StatKey) (rows : list IndividualStatsRow) :
  Sorted (desc_by k) (sort_desc k rows).
Proof.
  unfold sort_desc.
  assert (Hgen : forall acc, Sorted (desc_by k) acc ->
            Sorted (desc_by k) (fold_left (fun acc r => insert_desc k r acc) rows acc)).
  { induction rows as [|r rows IH]; intros acc Hacc; simpl; [exact Hacc|].
    apply IH. apply insert_desc_sorted. exact Hacc. }
  apply Hgen. constructor.
Qed.

(** The leaderboard lists the rows built from the aggregated totals, each
    once, sorted by the chosen stat from the largest value down. *)
Theorem leaderboard_sorted_perm (evs : list GameEvent) (games : list Game)
    (players : list PlayerIdentity) (scope : StatScope) (optYear : option Z)
    (optLeague : option string) (sortBy : StatKey) (nowYear : Z) :
  let scoped := filterEventsByScope evs games scope optYear optLeague nowYear in
  let rows := buildIndividualLeaderboard evs games players scope optYear optLeague sortBy
                nowYear in
  Sorted (desc_by sortBy) rows /\
  Permutation rows
    (map (make_row players (snd (aggregate_totals scoped))) (fst (aggregate_totals scoped))).
Proof.
  cbv zeta. unfold buildIndividualLeaderboard.
  destruct (aggregate_totals _) as [totals gp]. simpl.
  split; [apply sort_desc_sorted | apply sort_desc_perm].
Qed.


Lemma count_events_false (evs : list GameEvent) : count_events (fun _ => false) evs = 0.
Proof. unfold count_events. induction evs as [|ev evs IH]; simpl; [reflexivity|exact IH]. Qed.

Lemma aggregate_field_count (f : Totals -> Z) (q : GameEvent -> bool) (pid : string) :
  f zeroTotals = 0 ->
  (forall s gp ev, f (lookup_totals (fst (fold_event (s, gp) ev)) pid)
                   = f (lookup_totals s pid) + (if q ev then 1 else 0)) ->
  forall evs, f (lookup_totals (fst (aggregate_totals evs)) pid) = count_events q evs.
Proof.
  intros H0 Hstep evs. induction evs as [|ev evs IH] using rev_ind.
  - exact H0.
  - rewrite aggregate_totals_snoc, count_events_snoc, <- IH.
    destruct (aggregate_totals evs) as [s gp]. apply Hstep.
Qed.

Ltac fold_event_step :=
  intros ?s ?gp ?ev; unfold fold_event, truthy_is;
  destruct (eventType _); simpl;
  repeat match goal with
         | |- context [match truthy_id ?o with _ => _ end] => destruct (truthy_id o)
         end; simpl;
  repeat rewrite lookup_totals_credit;
  repeat match goal with |- context [String.eqb ?a ?b] => destruct (String.eqb a b) end;
  simpl; lia.

(** Each leaderboard row counts the player's own scoped events: at-bats
    and strikeouts as the batter, errors and catches as the named
    defender, steals won and lost as the named runner, bases defended as
    the defender of a steal; its attempted steals are the won plus the
    lost ones. *)
Theorem leaderboard_row_counts (evs : list GameEvent) (games : list Game)
    (players : list PlayerIdentity) (scope : StatScope) (optYear : option Z)
    (optLeague : option string) (sortBy : StatKey) (nowYear : Z) (r : IndividualStatsRow) :
  let scoped := filterEventsByScope evs games scope optYear optLeague nowYear in
  In r (buildIndividualLeaderboard evs games players scope optYear optLeague sortBy nowYear) ->
  let pid := r_playerId r in
  s_atBats (stats r)
  = count_events (fun ev => String.eqb (batterId ev) pid && at_bat_type (eventType ev)) scoped /\
  s_strikeouts (stats r)
  = count_events (fun ev => String.eqb (batterId ev) pid && is_type (eventType ev) ev_strikeout)
      scoped /\
  s_errors (stats r)
  = count_events (fun ev => is_type (eventType ev) ev_error && truthy_is (defenderId ev) pid)
      scoped /\
  s_catches (stats r)
  = count_events
      (fun ev => is_type (eventType ev) ev_caught_out && truthy_is (defenderId ev) pid) scoped /\
  s_stealsWon (stats r)
  = count_events
      (fun ev => is_type (eventType ev) ev_steal_success && truthy_is (runnerId ev) pid) scoped /\
  s_stealsLost (stats r)
  = count_events
      (fun ev => is_type (eventType ev) ev_steal_fail && truthy_is (runnerId ev) pid) scoped /\
  s_basesDefended (stats r)
  = count_events
      (fun ev => (is_type (eventType ev) ev_steal_success || is_type (eventType ev) ev_steal_fail)
                 && truthy_is (defenderId ev) pid) scoped /\
  s_stealsAttempted (stats r) = s_stealsWon (stats r) + s_stealsLost (stats r).
Proof.
  intros scoped Hr pid. unfold buildIndividualLeaderboard in Hr. fold scoped in Hr.
  pose proof (aggregate_keys scoped) as [Hn _].
  destruct (aggregate_totals scoped) as [totals gp] eqn:Ea. simpl in Hn.
  apply sort_desc_in, in_map_iff in Hr as [[p t] [Hrow Hin]].
  pose proof (lookup_totals_in totals p t Hn Hin) as Ht.
  assert (Hf : forall (f : Totals -> Z) (q : GameEvent -> bool), f zeroTotals = 0 ->
            (forall s gp ev, f (lookup_totals (fst (fold_event (s, gp) ev)) p)
                             = f (lookup_totals s p) + (if q ev then 1 else 0)) ->
            f t = count_events q scoped).
  { intros f q H0 Hs. rewrite <- Ht. change totals with (fst (totals, gp)). rewrite <- Ea.
    apply aggregate_field_count; assumption. }
  subst pid. rewrite <- Hrow. simpl.
  split; [apply Hf; [reflexivity|fold_event_step]|].
  split; [apply Hf; [reflexivity|fold_event_step]|].
  split; [apply Hf; [reflexivity|fold_event_step]|].
  split; [apply Hf; [reflexivity|fold_event_step]|].
  split; [apply Hf; [reflexivity|fold_event_step]|].
  split; [apply Hf; [reflexivity|fold_event_step]|].
  split; [apply Hf; [reflexivity|fold_event_step]|].
  pose proof (Hf (fun t => stealsAttempted t - stealsWon t - stealsLost t) (fun _ => false)
                 eq_refl) as Hsteal.
  rewrite count_events_false in Hsteal. cut (stealsAttempted t - stealsWon t - stealsLost t = 0).
  { lia. }
  apply Hsteal. fold_event_step.
Qed.

Lemma leaderboard_row_counts_witness :
  let rows := buildIndividualLeaderboard [Fixtures.stray_strikeout] [] [] overall None None
                k_slugging 2026 in
  let r := List.hd (make_row [] ∅ ("", zeroTotals)) rows in
  In r rows /\ s_atBats (stats r) = 1 /\ s_strikeouts (stats r) = 1 /\ s_errors (stats r) = 0.
Proof.
  intros rows r.
  assert (Hr : In r rows) by (vm_compute; left; reflexivity).
  destruct (leaderboard_row_counts [Fixtures.stray_strikeout] [] [] overall None None
              k_slugging 2026 r Hr) as (Ha & Hs & He & _).
  split; [exact Hr|]. rewrite Ha, Hs, He. vm_compute. split; [reflexivity|split; reflexivity].
Defined.

Lemma mark_lookup (gp : Participation) (p g pid : string) :
  dflt (markGameParticipation gp p g !! pid) ∅
  ≡ (if String.eqb p pid then {[g]} else ∅) ∪ dflt (gp !! pid) ∅.
Proof.
  unfold markGameParticipation. destruct (String.eqb_spec p pid) as [<-|Hne].
  - rewrite (lookup_insert_eq (gp : gmap string (gset string))). simpl. set_solver.
  - rewrite (lookup_insert_ne (gp : gmap string (gset string))) by exact Hne. set_solver.
Qed.

Lemma fold_event_participation (s : TotalsStore) (gp : Participation) (ev : GameEvent)
    (pid : string) :
  dflt (snd (fold_event (s, gp) ev) !! pid) ∅
  ≡ (if involved pid ev then {[gameId ev]} else ∅) ∪ dflt (gp !! pid) ∅.
Proof.
  unfold fold_event, involved, truthy_is.
  destruct (eventType ev); simpl;
    repeat match goal with
           | |- context [match truthy_id ?o with _ => _ end] => destruct (truthy_id o)
           end; simpl;
    repeat rewrite mark_lookup;
    repeat match goal with |- context [String.eqb ?a ?b] => destruct (String.eqb a b) end;
    simpl; set_solver.
Qed.

Lemma aggregate_participation (evs : list GameEvent) (pid : string) :
  dflt (snd (aggregate_totals evs) !! pid) ∅
  ≡ list_to_set (map gameId (List.filter (involved pid) evs)).
Proof.
  induction evs as [|ev evs IH] using rev_ind.
  - unfold aggregate_totals. simpl fold_left. cbn [snd].
    change (dflt ((∅ : gmap string (gset string)) !! pid) ∅
            ≡ list_to_set (C := gset string) (map gameId (List.filter (involved pid) []))).
    rewrite lookup_empty. reflexivity.
  - rewrite aggregate_totals_snoc, List.filter_app, map_app, list_to_set_app.
    destruct (aggregate_totals evs) as [s gp]. simpl in IH.
    rewrite fold_event_participation, IH.
    cbn [List.filter]. destruct (involved pid ev); cbn [map list_to_set]; set_solver.
Qed.

(** A row's [gamesPlayed] is the number of distinct games among the
    scoped events in which the player batted, ran a steal or defended one;
    a player credited only with errors or catches has a row with
    [gamesPlayed] 0. *)
Theorem leaderboard_games_played (evs : list GameEvent) (games : list Game)
    (players : list PlayerIdentity) (scope : StatScope) (optYear : option Z)
    (optLeague : option string) (sortBy : StatKey) (nowYear : Z) (r : IndividualStatsRow) :
  let scoped := filterEventsByScope evs games scope optYear optLeague nowYear in
  In r (buildIndividualLeaderboard evs games players scope optYear optLeague sortBy nowYear) ->
  gamesPlayed (stats r)
  = Z.of_nat (size (list_to_set (C := gset string)
                      (map gameId (List.filter (involved (r_playerId r)) scoped)))).
Proof.
  intros scoped Hr. unfold buildIndividualLeaderboard in Hr. fold scoped in Hr.
  pose proof (aggregate_participation scoped) as Hpart.
  destruct (aggregate_totals scoped) as [totals gp] eqn:Ea. simpl in Hpart.
  apply sort_desc_in, in_map_iff in Hr as [[p t] [Hrow Hin]].
  rewrite <- Hrow. simpl.
  specialize (Hpart p). apply leibniz_equiv in Hpart. rewrite <- Hpart.
  destruct (gp !! p); cbn [dflt]; [reflexivity|].
  rewrite size_empty. reflexivity.
Qed.

Lemma leaderboard_games_played_witness :
  let rows := buildIndividualLeaderboard [Fixtures.stray_strikeout] [] [] overall None None
                k_slugging 2026 in
  let r := List.hd (make_row [] ∅ ("", zeroTotals)) rows in
  In r rows /\ gamesPlayed (stats r) = 1.
Proof.
  intros rows r.
  assert (Hr : In r rows) by (vm_compute; left; reflexivity).
  split; [exact Hr|].
  rewrite (leaderboard_games_played [Fixtures.stray_strikeout] [] [] overall None None
             k_slugging 2026 r Hr).
  vm_compute. reflexivity.
Defined.

End LeaderboardRows.

(* ------------------------------------------------------------------ *)
(** ** Team leaderboard *)

Section TeamBoardProofs.
Import Baseball GameStore Stats Counts TeamBoard.

Lemma insert_team_perm (x : TeamStatsRow) (l : list TeamStatsRow) :
  Permutation (insert_team_desc x l) (x :: l).
Proof.
  induction l as [|y l IH]; simpl; [reflexivity|].
  destruct (negb _); [reflexivity|].
  eapply Permutation_trans; [apply perm_skip, IH|apply perm_swap].
Qed.

Lemma sort_team_perm (rows : list TeamStatsRow) : Permutation (sort_team_desc rows) rows.
Proof.
  unfold sort_team_desc.
  assert (Hgen : forall acc, Permutation (fold_left (fun acc r => insert_team_desc r acc) rows acc)
                                         (rev rows ++ acc)).
  { induction rows as [|r rows IH]; intros acc; simpl; [reflexivity|].
    eapply Permutation_trans; [apply IH|].
    rewrite <- app_assoc. simpl. apply Permutation_app_head. apply insert_team_perm. }
  eapply Permutation_trans; [apply Hgen|]. rewrite app_nil_r.
  apply Permutation_sym, Permutation_rev.
Qed.

Lemma insert_team_hd (x y : TeamStatsRow) (l : list TeamStatsRow) :
  HdRel team_desc y l -> team_desc y x -> HdRel team_desc y (insert_team_desc x l).
Proof.
  intros Hh Hyx. destruct l as [|z l]; simpl; [constructor; exact Hyx|].
  destruct (negb _); constructor; [exact Hyx|]. inversion Hh. assumption.
Qed.

Lemma insert_team_sorted (x : TeamStatsRow) (l : list TeamStatsRow) :
  Sorted team_desc l -> Sorted team_desc (insert_team_desc x l).
Proof.
  induction 1 as [|y l Hs IH Hhd]; simpl; [repeat constructor|].
  destruct (Qle_bool (tm_slugging (tr_stats x)) (tm_slugging (tr_stats y))) eqn:E; simpl.
  - apply Qle_bool_iff in E. constructor; [exact IH|].
    apply insert_team_hd; [exact Hhd | exact E].
  - constructor; [constructor; assumption|]. constructor. unfold team_desc.
    apply Qlt_le_weak, Qnot_le_lt. intros Hle. apply Qle_bool_iff in Hle. congruence.
Qed.

Lemma sort_team_sorted (rows : list TeamStatsRow) : Sorted team_desc (sort_team_desc rows).
Proof.
  unfold sort_team_desc.
  assert (Hgen : forall acc, Sorted team_desc acc ->
            Sorted team_desc (fold_left (fun acc r => insert_team_desc r acc) rows acc)).
  { induction rows as [|r rows IH]; intros acc Hacc; simpl; [exact Hacc|].
    apply IH. apply insert_team_sorted. exact Hacc. }
  apply Hgen. constructor.
Qed.

Lemma team_row_ids (scope : StatScope) (optYear : option Z) (optLeague : option string)
    (games : list TeamGame) (labels : gmap string string) (ps : list IndividualStatsRow)
    (teamIds : list string) :
  map tr_teamId (map (team_row scope optYear optLeague games labels ps) teamIds) = teamIds.
Proof. induction teamIds as [|t ts IH]; simpl; [reflexivity|]. f_equal. exact IH. Qed.

(** The team leaderboard has one row per entry of [teamIds] (a repeated
    id gives repeated rows), sorted by team slugging from the largest
    value down. *)
Theorem team_leaderboard_sorted_perm (teamIds : list string) (labels : gmap string string)
    (scope : StatScope) (games : list TeamGame) (evs : list GameEvent)
    (players : list PlayerIdentity) (optLeague : option string) (optYear : option Z)
    (nowYear : Z) :
  let rows := buildTeamLeaderboard teamIds labels scope games evs players optLeague optYear
                nowYear in
  Sorted team_desc rows /\ Permutation (map tr_teamId rows) teamIds.
Proof.
  cbv zeta. unfold buildTeamLeaderboard. split; [apply sort_team_sorted|].
  eapply Permutation_trans; [apply Permutation_map, sort_team_perm|].
  rewrite team_row_ids. reflexivity.
Qed.

Lemma row_lookup_skip (rows : list IndividualStatsRow) (pid : string) (acc : option IndividualStats) :
  Forall (fun r => r_playerId r <> pid) rows ->
  fold_left (fun acc r => if String.eqb (r_playerId r) pid then Some (stats r) else acc) rows acc
  = acc.
Proof.
  intros H. revert acc. induction H as [|r rows Hr Hrest IH]; intros acc; simpl; [reflexivity|].
  destruct (String.eqb_spec (r_playerId r) pid); [contradiction|]. apply IH.
Qed.

Lemma row_lookup_in (rows : list IndividualStatsRow) (r : IndividualStatsRow) :
  List.NoDup (map r_playerId rows) -> In r rows -> row_lookup rows (r_playerId r) = Some (stats r).
Proof.
  unfold row_lookup. generalize (@None IndividualStats) as acc.
  induction rows as [|x rows IH]; simpl; intros acc Hn Hin; [contradiction|].
  apply List.NoDup_cons_iff in Hn as [Hx Hn].
  destruct Hin as [<-|Hin].
  - rewrite String.eqb_refl. apply row_lookup_skip.
    apply List.Forall_forall. intros y Hy Heq. apply Hx. rewrite <- Heq. apply in_map. exact Hy.
  - apply IH; assumption.
Qed.

Lemma fold_add_row (t : string) (ps l : list IndividualStatsRow) (s : TeamStats) :
  (forall r, In r l -> row_lookup ps (r_playerId r) = Some (stats r)) ->
  let s' := fold_left (add_row t ps) l s in
  let S f := sum_Z (map (fun r => f (stats r)) (List.filter (counts_for t) l)) in
  tm_atBats s' = tm_atBats s + S s_atBats /\ tm_hits s' = tm_hits s + S s_hits /\
  tm_singles s' = tm_singles s + S s_singles /\ tm_doubles s' = tm_doubles s + S s_doubles /\
  tm_triples s' = tm_triples s + S s_triples /\
  tm_homeruns s' = tm_homeruns s + S s_homeruns.
Proof.
  revert s. induction l as [|r l IH]; intros s Hl; cbv zeta; simpl; [lia|].
  destruct (IH (add_row t ps s r)) as (Ha & Hh & Hs & Hd & Htr & Hhr);
    [intros r' Hr'; apply Hl; right; exact Hr'|].
  cbv zeta in Ha, Hh, Hs, Hd, Htr, Hhr. rewrite Ha, Hh, Hs, Hd, Htr, Hhr.
  unfold add_row, counts_for. rewrite (Hl r (or_introl eq_refl)).
  destruct (skips_team t r); simpl; lia.
Qed.

Lemma ind_rows_wf (evs : list GameEvent) (games : list Game) (players : list PlayerIdentity)
    (scope : StatScope) (optYear : option Z) (optLeague : option string) (sortBy : StatKey)
    (nowYear : Z) (r : IndividualStatsRow) :
  In r (buildIndividualLeaderboard evs games players scope optYear optLeague sortBy nowYear) ->
  let st := stats r in
  0 <= s_singles st /\ 0 <= s_doubles st /\ 0 <= s_triples st /\ 0 <= s_homeruns st /\
  s_hits st = s_singles st + s_doubles st + s_triples st + s_homeruns st /\
  s_hits st <= s_atBats st.
Proof.
  unfold buildIndividualLeaderboard.
  set (scoped := filterEventsByScope evs games scope optYear optLeague nowYear).
  assert (Hwf := aggregate_totals_wf scoped).
  destruct (aggregate_totals scoped) as [totals gp]. simpl in Hwf.
  intros Hr. apply sort_desc_in, in_map_iff in Hr as [[pid t] [<- Hin]].
  rewrite List.Forall_forall in Hwf. specialize (Hwf _ Hin). simpl in Hwf.
  unfold totals_wf in Hwf. simpl. lia.
Qed.

Lemma ind_rows_nodup (evs : list GameEvent) (games : list Game) (players : list PlayerIdentity)
    (scope : StatScope) (optYear : option Z) (optLeague : option string) (sortBy : StatKey)
    (nowYear : Z) :
  List.NoDup (map r_playerId
    (buildIndividualLeaderboard evs games players scope optYear optLeague sortBy nowYear)).
Proof.
  unfold buildIndividualLeaderboard.
  pose proof (aggregate_keys (filterEventsByScope evs games scope optYear optLeague nowYear))
    as [Hn _].
  destruct (aggregate_totals _) as [totals gp]. simpl in Hn.
  eapply Permutation_NoDup;
    [apply Permutation_map, Permutation_sym, sort_desc_perm|].
  rewrite map_map. erewrite map_ext; [exact Hn|]. apply make_row_id.
Qed.

Lemma sums_wf (l : list IndividualStatsRow) :
  Forall (fun r => let st := stats r in
    0 <= s_singles st /\ 0 <= s_doubles st /\ 0 <= s_triples st /\ 0 <= s_homeruns st /\
    s_hits st = s_singles st + s_doubles st + s_triples st + s_homeruns st /\
    s_hits st <= s_atBats st) l ->
  let S f := sum_Z (map (fun r => f (stats r)) l) in
  0 <= S s_singles /\ 0 <= S s_doubles /\ 0 <= S s_triples /\ 0 <= S s_homeruns /\
  S s_hits = S s_singles + S s_doubles + S s_triples + S s_homeruns /\
  S s_hits <= S s_atBats.
Proof.
  induction 1 as [|r l Hr Hl IH]; cbv zeta in *; simpl; [lia|]. simpl in Hr. lia.
Qed.

(** A team's row adds up the leaderboard rows of the players counted for
    it (those of the team and those without a team id, so a player
    without a team counts for every team); its batting average lies in
    [0, 1] and its slugging in [0, 4]. *)
Theorem team_row_totals (teamIds : list string) (labels : gmap string string)
    (scope : StatScope) (games : list TeamGame) (evs : list GameEvent)
    (players : list PlayerIdentity) (optLeague : option string) (optYear : option Z)
    (nowYear : Z) (tr : TeamStatsRow) :
  In tr (buildTeamLeaderboard teamIds labels scope games evs players optLeague optYear nowYear) ->
  let ps := buildIndividualLeaderboard
              (filterEventsByScope evs (map tg_game games) scope optYear optLeague nowYear)
              (map tg_game games) players overall None None k_slugging nowYear in
  let counted := List.filter (counts_for (tr_teamId tr)) ps in
  In (tr_teamId tr) teamIds /\
  tm_atBats (tr_stats tr) = sum_Z (map (fun r => s_atBats (stats r)) counted) /\
  tm_hits (tr_stats tr) = sum_Z (map (fun r => s_hits (stats r)) counted) /\
  (0 <= tm_battingAverage (tr_stats tr) <= 1)%Q /\ (0 <= tm_slugging (tr_stats tr) <= 4)%Q.
Proof.
  intros Hin. cbv zeta. unfold buildTeamLeaderboard in Hin. cbv zeta in Hin.
  set (ps := buildIndividualLeaderboard
               (filterEventsByScope evs (map tg_game games) scope optYear optLeague nowYear)
               (map tg_game games) players overall None None k_slugging nowYear) in *.
  apply (Permutation_in _ (sort_team_perm _)), in_map_iff in Hin as [t [<- Ht]].
  assert (Hlook : forall r, In r ps -> row_lookup ps (r_playerId r) = Some (stats r)).
  { intros r Hr. apply row_lookup_in; [apply ind_rows_nodup|exact Hr]. }
  assert (Hwf : Forall (fun r => let st := stats r in
    0 <= s_singles st /\ 0 <= s_doubles st /\ 0 <= s_triples st /\ 0 <= s_homeruns st /\
    s_hits st = s_singles st + s_doubles st + s_triples st + s_homeruns st /\
    s_hits st <= s_atBats st) (List.filter (counts_for t) ps)).
  { apply List.Forall_forall. intros r Hr. apply List.filter_In in Hr as [Hr _].
    exact (ind_rows_wf _ _ _ _ _ _ _ _ r Hr). }
  apply sums_wf in Hwf. cbv zeta in Hwf.
  unfold team_row. cbv zeta. cbn [tr_teamId tr_stats tm_atBats tm_hits tm_battingAverage tm_slugging].
  match goal with |- context [fold_left (add_row t ps) ps ?s0] =>
    destruct (fold_add_row t ps ps s0 Hlook) as (Ha & Hh & Hs & Hd & Htr & Hhr);
    set (S := fold_left (add_row t ps) ps s0) in * end.
  cbv zeta in Ha, Hh, Hs, Hd, Htr, Hhr. cbn in Ha, Hh, Hs, Hd, Htr, Hhr.
  split; [exact Ht|]. split; [lia|]. split; [lia|]. split.
  - apply (rate_bounds (tm_hits S) (tm_atBats S) 1); lia.
  - apply (rate_bounds _ (tm_atBats S) 4); lia.
Qed.

Lemma team_row_totals_witness :
  let games := [mkTeamGame (mkGame "ghost" 2026 None friendly) "A" "B" None] in
  let rows := buildTeamLeaderboard ["A"] ∅ overall games [Fixtures.stray_strikeout] [] None None
                2026 in
  let tr := List.hd (team_row overall None None [] ∅ [] "") rows in
  In tr rows /\ tr_teamId tr = "A" /\ tm_atBats (tr_stats tr) = 1.
Proof.
  intros games rows tr.
  assert (Hr : In tr rows) by (vm_compute; left; reflexivity).
  destruct (team_row_totals ["A"] ∅ overall games [Fixtures.stray_strikeout] [] None None 2026
              tr Hr) as (_ & Ha & _).
  split; [exact Hr|]. split; [vm_compute; reflexivity|].
  rewrite Ha. vm_compute. reflexivity.
Defined.

End TeamBoardProofs.

(* ------------------------------------------------------------------ *)
(** ** Scope defaults and id lookups of the aggregator *)

Section ScopeProofs.
Import Baseball GameStore Stats.

Lemma fold_max_spec (ys : list Z) (y : Z) :
  In (fold_left Z.max ys y) (y :: ys) /\ y <= fold_left Z.max ys y /\
  (forall z, In z ys -> z <= fold_left Z.max ys y).
Proof.
  revert y. induction ys as [|z zs IH]; intros y; simpl.
  - split; [left; reflexivity|]. split; [lia|]. intros z [].
  - destruct (IH (Z.max y z)) as (Hin & Hle & Hall). split; [|split].
    + destruct Hin as [Hm|Hin]; [|right; right; exact Hin].
      destruct (Z.max_spec y z) as [[_ E]|[_ E]]; rewrite E in *;
        [right; left; exact Hm | left; exact Hm].
    + lia.
    + intros w [<-|Hw]; [lia|]. apply Hall. exact Hw.
Qed.

Lemma fold_last_match {A} (key : A -> string) (l : list A) (k : string) (acc : option A) :
  fold_left (fun acc x => if String.eqb (key x) k then Some x else acc) l acc
  = match List.find (fun x => String.eqb (key x) k) (rev l) with
    | Some x => Some x | None => acc end.
Proof.
  revert acc. induction l as [|x l IH]; intros acc; simpl; [reflexivity|].
  rewrite IH, find_app_or. destruct (List.find _ (rev l)); [reflexivity|]. simpl.
  destruct (String.eqb (key x) k); reflexivity.
Qed.

(** Without a year, the year scope uses the latest start year among the
    games, and the current year when there are none; the game and
    player lookups of the aggregator ([new Map(...)] over the lists)
    resolve an id to the last entry with that id. *)
Theorem scope_year_and_lookups (games : list Game) (players : list PlayerIdentity)
    (nowYear : Z) :
  (games = [] -> defaultScopeYear games nowYear = nowYear) /\
  (games <> [] -> In (defaultScopeYear games nowYear) (map startYear games) /\
     forall g, In g games -> startYear g <= defaultScopeYear games nowYear) /\
  (forall gid, game_lookup games gid
     = List.find (fun g => String.eqb (g_id g) gid) (rev games)) /\
  (forall pid, player_lookup players pid
     = List.find (fun p => String.eqb (p_id p) pid) (rev players)).
Proof.
  split; [intros ->; reflexivity|]. split; [|split].
  - intros Hne. unfold defaultScopeYear.
    destruct games as [|g gs]; [contradiction|]. simpl.
    destruct (fold_max_spec (map startYear gs) (startYear g)) as (Hin & Hle & Hall).
    split; [exact Hin|]. intros g' [<-|Hg']; [exact Hle|].
    apply Hall. apply in_map. exact Hg'.
  - intros gid. unfold game_lookup. rewrite (fold_last_match g_id).
    destruct (List.find _ _); reflexivity.
  - intros pid. unfold player_lookup. rewrite (fold_last_match p_id).
    destruct (List.find _ _); reflexivity.
Qed.

End ScopeProofs.

(* ------------------------------------------------------------------ *)
(** ** The league directory *)

Section LeagueProofs.
Import Leagues.

Lemma nodup_snoc {A} (l : list A) (x : A) :
  List.NoDup l -> ~ In x l -> List.NoDup (l ++ [x]).
Proof.
  induction l as [|y l IH]; simpl; intros Hn Hx; [repeat constructor; intros []|].
  apply List.NoDup_cons_iff in Hn as [Hy Hn]. constructor.
  - rewrite in_app_iff. intros [H|[H|[]]]; [contradiction|]. apply Hx. left. symmetry. exact H.
  - apply IH; [exact Hn|]. intros H. apply Hx. right. exact H.
Qed.

Lemma addLeague_ids_update (league : LeaguePreset) (l : list LeaguePreset) :
  map l_id (map (fun item => if String.eqb (l_id item) (l_id league)
                             then mkLeague (l_id item) (l_name league) (l_year league) else item) l)
  = map l_id l.
Proof.
  induction l as [|x l IH]; simpl; [reflexivity|].
  rewrite IH. destruct (String.eqb (l_id x) (l_id league)); reflexivity.
Qed.

Lemma find_update (league : LeaguePreset) (l : list LeaguePreset) (id : string) :
  List.find (fun x => String.eqb (l_id x) id)
    (map (fun item => if String.eqb (l_id item) (l_id league)
                      then mkLeague (l_id item) (l_name league) (l_year league) else item) l)
  = if String.eqb id (l_id league)
    then option_map (fun _ => league) (List.find (fun x => String.eqb (l_id x) id) l)
    else List.find (fun x => String.eqb (l_id x) id) l.
Proof.
  induction l as [|x l IH]; simpl.
  - destruct (String.eqb id (l_id league)); reflexivity.
  - rewrite IH.
    destruct (String.eqb_spec (l_id x) (l_id league)) as [Ex|Nx];
      destruct (String.eqb_spec id (l_id league)) as [Ei|Ni]; simpl.
    + rewrite Ex, Ei, String.eqb_refl. destruct league. reflexivity.
    + rewrite Ex. destruct (String.eqb_spec (l_id league) id); [congruence|reflexivity].
    + destruct (String.eqb_spec (l_id x) id); [congruence|reflexivity].
    + reflexivity.
Qed.

(** [addLeague] is an upsert: afterwards the league's id finds the given
    league and every other id finds what it found before; ids already
    present keep their places and a new id goes last, so a directory
    without repeated ids keeps none. *)
Theorem addLeague_upsert (league : LeaguePreset) (leagues : list LeaguePreset) :
  List.NoDup (map l_id leagues) ->
  List.NoDup (map l_id (addLeague league leagues)) /\
  (forall id, List.find (fun x => String.eqb (l_id x) id) (addLeague league leagues)
     = if String.eqb id (l_id league) then Some league
       else List.find (fun x => String.eqb (l_id x) id) leagues) /\
  (map l_id (addLeague league leagues) = map l_id leagues \/
   map l_id (addLeague league leagues) = map l_id leagues ++ [l_id league]).
Proof.
  intros Hn. unfold addLeague.
  destruct (List.find (fun item => String.eqb (l_id item) (l_id league)) leagues) as [e|] eqn:Ef.
  - rewrite addLeague_ids_update. split; [exact Hn|]. split; [|left; reflexivity].
    intros id. rewrite find_update.
    destruct (String.eqb_spec id (l_id league)) as [->|]; [rewrite Ef; reflexivity|reflexivity].
  - rewrite map_app. simpl. split; [|split; [|right; reflexivity]].
    + apply nodup_snoc; [exact Hn|]. intros Hx.
      apply in_map_iff in Hx as [y [Hy Hin]].
      apply (List.find_none _ _ Ef) in Hin. rewrite Hy, String.eqb_refl in Hin. discriminate.
    + intros id. rewrite find_app_or.
      destruct (String.eqb_spec id (l_id league)) as [->|Hne].
      * rewrite Ef. simpl. rewrite String.eqb_refl. reflexivity.
      * destruct (List.find (fun x => String.eqb (l_id x) id) leagues); [reflexivity|]. simpl.
        destruct (String.eqb_spec (l_id league) id); [congruence|reflexivity].
Qed.

Lemma addLeague_upsert_witness :
  List.NoDup (map l_id [mkLeague "l1" "Spring" 2025; mkLeague "l2" "Fall" 2025]) /\
  List.find (fun x => String.eqb (l_id x) "l1")
    (addLeague (mkLeague "l1" "Spring Cup" 2026) [mkLeague "l1" "Spring" 2025; mkLeague "l2" "Fall" 2025])
  = Some (mkLeague "l1" "Spring Cup" 2026).
Proof.
  assert (Hn : List.NoDup (map l_id [mkLeague "l1" "Spring" 2025; mkLeague "l2" "Fall" 2025])).
  { simpl. repeat constructor; simpl; intuition discriminate. }
  split; [exact Hn|].
  destruct (addLeague_upsert (mkLeague "l1" "Spring Cup" 2026) _ Hn) as (_ & Hf & _).
  rewrite Hf. reflexivity.
Defined.

End LeagueProofs.
